(** * MoLing: capability registry and lifecycle orchestrator

    A shallow embedding of the Go sources of the MoLing MCP server
    (registry, start-up orchestration, shutdown, capability adapter,
    provider configuration) and the properties its specification states
    about them.

    Conventions of the embedding.
    - A Go [error] is identified with its message; [nil] is [None].
    - A Go call that may panic or never return yields an [Outcome].
    - Calls made on collaborators (factories, providers, the logger, the
      protocol endpoint, the pid file) are recorded, in program order, in
      a trace of [Event]s carried by the monad [M].
    - A Go [map] is a [gmap]; the order in which [range] visits it is not
      fixed by the language, so every loop over a map takes the visiting
      order as an explicit list, a permutation of [map_to_list]. *)

From stdpp Require Import gmap strings list fin_maps sorting.
From Stdlib Require Import ZArith Ascii.

#[local] Set Warnings "-register-all".

(** ** Go values *)

(** [error]: the message of a Go error value. *)
Definition error : Type := string.

(** comm.MoLingServerType (a named string type). *)
Definition MoLingServerType : Type := string.

(** The result of a Go call: it returns, it panics, or it never returns. *)
Inductive Outcome (A : Type) : Type :=
| Returns (a : A)
| Panics (msg : string)
| Blocks.
Arguments Returns {A} a.
Arguments Panics {A} msg.
Arguments Blocks {A}.

(** A value decoded by encoding/json into [interface{}]. *)
Inductive Json : Type :=
| JNull
| JBool (b : bool)
| JNumber (z : Z)
| JString (s : string)
| JArray (items : list Json)
| JObject (fields : gmap string Json).

(** zerolog levels used by the orchestrator. *)
Inductive Level : Type := DebugLevel | InfoLevel | WarnLevel | ErrorLevel.

(** Calls on collaborators, in program order. *)
Inductive Event : Type :=
| EvFactory (key : MoLingServerType)
| EvLoadConfig (name : MoLingServerType) (settings : gmap string Json)
| EvInit (name : MoLingServerType)
| EvClose (name : string)
| EvLog (lvl : Level) (err : option error) (msg : string)
| EvCancel
| EvCreatePIDFile (path : string)
| EvRemovePIDFile (path : string)
| EvAdapt (name : MoLingServerType).

(** ** The trace monad *)

Definition M (A : Type) : Type := (list Event * Outcome A)%type.

#[global] Instance M_ret : MRet M := λ A a, ([], Returns a).

#[global] Instance M_bind : MBind M := λ A B f m,
  match m with
  | (t, Returns a) => let '(t', r) := f a in (t ++ t', r)
  | (t, Panics msg) => (t, Panics msg)
  | (t, Blocks) => (t, Blocks)
  end.

(** A call on a collaborator: the event, then whatever the call does. *)
Definition call {A} (e : Event) (o : Outcome A) : M A := ([e], o).

Definition log (lvl : Level) (err : option error) (msg : string) : M unit :=
  ([EvLog lvl err msg], Returns tt).

Definition trace {A} (m : M A) : list Event := m.1.
Definition outcome {A} (m : M A) : Outcome A := m.2.

(** ** pkg/config: the process-wide configuration *)

Record MoLingConfig : Type := {
  ConfigFile : string;
  BasePath : string;
  Version : string;
  ListenAddr : string;
  Debug : bool;
  Module : string;
  Username : string;
  HomeDir : string;
  SystemInfo : string;
  Description : string;
  Command : string;
  Args : string;
  BaseUrl : string;
  ServerName : string
}.

(** The context handed to factories: it carries the global configuration
    (comm.MoLingConfigKey) and the value stored under comm.MoLingLoggerKey,
    a zerolog.Logger or a value of some other type. *)
Inductive LoggerValue : Type :=
| IsLogger
| NotLogger (typeName : string).

Record Context : Type := {
  ctx_mlConfig : MoLingConfig;
  ctx_logger : LoggerValue
}.

(** ** The provider contract (abstract.Service) *)

Class ServiceOps (S : Type) : Type := {
  Name : S → MoLingServerType;
  LoadConfig : S → gmap string Json → Outcome (S * option error);
  Init : S → Outcome (S * option error);
  Close : S → Outcome (option error);
  Config : S → string
}.

(** A provider instance behind the interface: its dynamic type, its
    method table and its current state. *)
Record Service : Type := MkService {
  svc_type : Type;
  svc_ops : ServiceOps svc_type;
  svc_state : svc_type
}.

Definition svcName (s : Service) : MoLingServerType :=
  @Name _ (svc_ops s) (svc_state s).

Definition svcWith (s : Service) (st : svc_type s) : Service :=
  MkService (svc_type s) (svc_ops s) st.

Definition svcLoadConfig (s : Service) (settings : gmap string Json)
  : Outcome (Service * option error) :=
  match @LoadConfig _ (svc_ops s) (svc_state s) settings with
  | Returns (st, e) => Returns (svcWith s st, e)
  | Panics msg => Panics msg
  | Blocks => Blocks
  end.

Definition svcInit (s : Service) : Outcome (Service * option error) :=
  match @Init _ (svc_ops s) (svc_state s) with
  | Returns (st, e) => Returns (svcWith s st, e)
  | Panics msg => Panics msg
  | Blocks => Blocks
  end.

Definition svcClose (s : Service) : Outcome (option error) :=
  @Close _ (svc_ops s) (svc_state s).

Definition svcConfig (s : Service) : string :=
  @Config _ (svc_ops s) (svc_state s).

(** abstract.ServiceFactory: [func(ctx context.Context) (Service, error)]. *)
Definition ServiceFactory : Type := Context → Outcome (Service + error).

(** ** pkg/services/register.go: the registry *)

(** [RegisterServ]: [serviceLists[n] = f]. *)
Definition RegisterServ (n : MoLingServerType) (f : ServiceFactory)
    (serviceLists : gmap MoLingServerType ServiceFactory)
  : gmap MoLingServerType ServiceFactory :=
  <[n := f]> serviceLists.

(** [ServiceList]: the registry itself. *)
Definition ServiceList (serviceLists : gmap MoLingServerType ServiceFactory)
  : gmap MoLingServerType ServiceFactory :=
  serviceLists.


(** ** Helpers of the Go standard library and of pkg/utils *)

(** [strings.Split(s, ",")]: the substrings of [s] between commas; a string
    without a comma, the empty string included, yields one element. *)
Fixpoint strings_Split_comma (s : string) : list string :=
  match s with
  | EmptyString => [EmptyString]
  | String c s' =>
      if Ascii.eqb c ","%char then EmptyString :: strings_Split_comma s'
      else match strings_Split_comma s' with
           | x :: xs => String c x :: xs
           | [] => [String c EmptyString]
           end
  end.

(** Modelled from the spec: utils.StringInSlice is not under src/; from
    its use in initServices and the module-selection rule of the
    specification it reports whether the name is one of the listed
    names. *)
Definition StringInSlice (s : string) (l : list string) : bool :=
  bool_decide (s ∈ l).

(** [fmt] renders a [[]string] under [%v] as its elements between square
    brackets, separated by spaces. *)
Fixpoint join_space (l : list string) : string :=
  match l with
  | [] => ""
  | [x] => x
  | x :: xs => x +:+ " " +:+ join_space xs
  end.

Definition fmt_strings (l : list string) : string := "[" +:+ join_space l +:+ "]".

(** ** cli/cmd: start-up *)

(** [initSingleService]: construct one provider, load its configuration
    section when there is one, and initialise it. *)
Definition initSingleService (ctx : Context) (serviceType : MoLingServerType)
    (serviceFactory : ServiceFactory) (configJson : option (gmap string Json))
  : M (Service + error) :=
  r ← call (EvFactory serviceType) (serviceFactory ctx);
  match r with
  | inr err =>
      mret (inr ("failed to create service " +:+ serviceType +:+ ": " +:+ err))
  | inl service =>
      loaded ←
        match configJson with
        | Some cfg =>
            match cfg !! serviceType with
            | Some (JObject serviceSettings) =>
                r ← call (EvLoadConfig (svcName service) serviceSettings)
                         (svcLoadConfig service serviceSettings);
                match r with
                | (service', Some err) =>
                    mret (inr ("failed to load config for service "
                              +:+ svcName service' +:+ ": " +:+ err))
                | (service', None) => mret (inl service')
                end
            | _ => mret (inl service)
            end
        | None => mret (inl service)
        end;
      match loaded with
      | inr err => mret (inr err)
      | inl service =>
          r ← call (EvInit (svcName service)) (svcInit service);
          match r with
          | (service', Some err) =>
              mret (inr ("failed to initialize service "
                        +:+ svcName service' +:+ ": " +:+ err))
          | (service', None) => mret (inl service')
          end
      end
  end.

(** The module list of [initServices]: left [nil] for the sentinel value,
    the comma-separated names otherwise. *)
Definition moduleListOf (mlConfig : MoLingConfig) : list string :=
  if decide (Module mlConfig ≠ "Browser")
  then strings_Split_comma (Module mlConfig)
  else [].

(** The loop of [initServices] over the entries [range] yields. The
    closers map binds a provider name to the provider whose [Close] it
    will call. *)
Fixpoint initServices_loop (ctx : Context) (configJson : option (gmap string Json))
    (moduleList : list string)
    (entries : list (MoLingServerType * ServiceFactory))
    (servicesList : list Service) (closers : gmap string Service)
  : M ((list Service * gmap string Service) + error) :=
  match entries with
  | [] => mret (inl (servicesList, closers))
  | (serviceName, serviceFactory) :: rest =>
      if bool_decide (0 < length moduleList)
         && negb (StringInSlice serviceName moduleList)
      then
        log DebugLevel None
          ("initServices debug, module " +:+ serviceName +:+ " not in "
           +:+ fmt_strings moduleList +:+ ", skip");;
        initServices_loop ctx configJson moduleList rest servicesList closers
      else
        (if bool_decide (0 < length moduleList)
         then log DebugLevel None
                ("initServices debug, starting " +:+ serviceName +:+ " service")
         else mret tt);;
        r ← initSingleService ctx serviceName serviceFactory configJson;
        match r with
        | inr err =>
            log ErrorLevel (Some err)
              ("failed to initialize service " +:+ serviceName);;
            mret (inr err)
        | inl service =>
            initServices_loop ctx configJson moduleList rest
              (servicesList ++ [service])
              (<[svcName service := service]> closers)
        end
  end.

(** [initServices]: the providers selected by [mlConfig.Module], in the
    order [entries] in which [range services.ServiceList()] yields them. *)
Definition initServices (mlConfig : MoLingConfig) (ctx : Context)
    (configJson : option (gmap string Json))
    (entries : list (MoLingServerType * ServiceFactory))
  : M ((list Service * gmap string Service) + error) :=
  initServices_loop ctx configJson (moduleListOf mlConfig) entries [] ∅.

(** The default of the [--module] flag ([init] of cli/cmd/root.go). *)
Definition moduleFlagDefault : string := "all".

(** ** cli/cmd: shutdown *)

(** The deadline of [shutdownServices], [5 * time.Second], in
    milliseconds. *)
Definition shutdownTimeout : nat := 5000.

(** The two cases of the [select] in [shutdownServices]. *)
Inductive SelectCase : Type := CaseTimeout | CaseDone.

(** What the run-time decides during one shutdown: the moment, in
    milliseconds after [shutdownServices] is entered, at which each
    provider's [Close] call ends when it ends at all, and the case [select]
    takes when the timer and [done] are ready at the same moment. *)
Record Schedule : Type := {
  closeTime : string → nat;
  onTie : SelectCase
}.

(** The goroutine started for one entry of [closers]. *)
Definition closerTask (name : string) (closeFn : Service) : M unit :=
  err ← call (EvClose name) (svcClose closeFn);
  match err with
  | Some e => log ErrorLevel (Some e) ("failed to close service " +:+ name)
  | None => log InfoLevel None ("service " +:+ name +:+ " closed")
  end.

(** One goroutine for each entry that [range closers] yields; none waits
    for another. *)
Definition closerTasks (entries : list (string * Service))
  : list (string * M unit) :=
  map (λ e, (e.1, closerTask e.1 e.2)) entries.

Definition returned {A} (m : M A) : bool :=
  match outcome m with Returns _ => true | _ => false end.

Definition panicked {A} (m : M A) : bool :=
  match outcome m with Panics _ => true | _ => false end.

(** [wg.Wait()] returns, and [done] is closed, once every goroutine has
    run its deferred [wg.Done()]: at the latest of their ends, and never
    when one of the [Close] calls does not return. *)
Definition doneAt (sch : Schedule) (tasks : list (string * M unit))
  : option nat :=
  if forallb (λ t, returned t.2) tasks
  then Some (max_list (map (λ t, closeTime sch t.1) tasks))
  else None.

(** The [select] of [shutdownServices]: which case runs, and when. *)
Definition selectCase (sch : Schedule) (done : option nat) : SelectCase * nat :=
  match done with
  | Some t =>
      if bool_decide (t < shutdownTimeout) then (CaseDone, t)
      else if bool_decide (t = shutdownTimeout) then (onTie sch, shutdownTimeout)
      else (CaseTimeout, shutdownTimeout)
  | None => (CaseTimeout, shutdownTimeout)
  end.

(** A panic in a goroutine ends the process: the first moment at which a
    [Close] call panics, if one does. *)
Definition panicAt (sch : Schedule) (tasks : list (string * M unit))
  : option nat :=
  match filter (λ t, panicked t.2 = true) tasks with
  | [] => None
  | t :: ts => Some (foldr Nat.min (closeTime sch t.1)
                       (map (λ t, closeTime sch t.1) ts))
  end.

(** The outcome of [shutdownServices]: the goroutines it started, the case
    its [select] took, the moment the calling goroutine went on, and what
    the calling goroutine did. *)
Record Shutdown : Type := {
  sd_tasks : list (string * M unit);
  sd_case : SelectCase;
  sd_wake : nat;
  sd_main : M unit
}.

(** The body of the [select] case that runs. *)
Definition selectBody (c : SelectCase) : M unit :=
  match c with
  | CaseTimeout =>
      call EvCancel (Returns tt);;
      log InfoLevel None "timeout, all services closed forcefully"
  | CaseDone =>
      call EvCancel (Returns tt);;
      log InfoLevel None "all services closed gracefully"
  end.

(** [shutdownServices]. [entries] is the order in which [range closers]
    yields the closers. The calling goroutine waits in [select] only; it
    is stopped earlier only by a panic in one of the goroutines. *)
Definition shutdownServices (sch : Schedule)
    (entries : list (string * Service)) : Shutdown :=
  let tasks := closerTasks entries in
  let '(c, wake) := selectCase sch (doneAt sch tasks) in
  {| sd_tasks := tasks;
     sd_case := c;
     sd_wake := wake;
     sd_main :=
       match panicAt sch tasks with
       | Some t =>
           if bool_decide (t ≤ wake)
           then ([], Panics "panic in a closer goroutine")
           else selectBody c
       | None => selectBody c
       end |}.

(** [waitForShutdownSignal], from the moment a signal has been received.
    [removePIDFile] is the result of utils.RemovePIDFile. *)
Definition waitForShutdownSignal (sch : Schedule)
    (entries : list (string * Service)) (pidFilePath : string)
    (removePIDFile : option error) : M (option error) :=
  log InfoLevel None "Received signal, shutting down...";;
  sd_main (shutdownServices sch entries);;
  err ← call (EvRemovePIDFile pidFilePath) (Returns removePIDFile);
  match err with
  | Some e =>
      log ErrorLevel (Some e) ("failed to remove pid file " +:+ pidFilePath);;
      mret (Some e)
  | None =>
      log InfoLevel None ("removed pid file " +:+ pidFilePath);;
      log InfoLevel None " Bye!";;
      mret None
  end.

(** ** cli/cmd: the command *)

Definition MLPidName : string := "moling.pid".

(** [filepath.Join] of two elements, on a platform whose separator is
    the slash; the elements used here need no cleaning. *)
Definition filepath_Join (dir name : string) : string := dir +:+ "/" +:+ name.

(** What the operating system and the run-time answer during one run. *)
Record World : Type := {
  createPIDFile : string → option error;
  removePIDFile : string → option error;
  readConfigFile : string → option (gmap string Json) + error;
  rangeClosers : gmap string Service → list (string * Service);
  schedule : Schedule
}.

(** [checkRunningInstance]. *)
Definition checkRunningInstance (w : World) (pidFilePath : string)
  : M (option error) :=
  log InfoLevel None "Starting MoLing MCP Server...";;
  call (EvCreatePIDFile pidFilePath) (Returns (createPIDFile w pidFilePath)).

(** [loadConfigFile]: a file that cannot be read leaves the map [nil]; a
    file that is not JSON is an error. [readConfigFile] answers for
    [os.ReadFile] followed by [json.Unmarshal]. *)
Definition loadConfigFile (w : World) (configFilePath : string)
  : M (option (gmap string Json) + error) :=
  log InfoLevel None "start";;
  match readConfigFile w configFilePath with
  | inr err => mret (inr err)
  | inl configJson =>
      log InfoLevel None "load config file";;
      mret (inl configJson)
  end.

(** [startMoLingServer]: [server.NewMoLingServer] adapts every provider
    of [servicesList] in turn; [loadService] returns no error, so neither
    does the constructor. The [Serve] call runs in a goroutine of its
    own. *)
Fixpoint adaptServices (servicesList : list Service) : M unit :=
  match servicesList with
  | [] => mret tt
  | srv :: rest =>
      log DebugLevel None "Loading service";;
      call (EvAdapt (svcName srv)) (Returns tt);;
      adaptServices rest
  end.

Definition startMoLingServer (servicesList : list Service) : M (option error) :=
  adaptServices servicesList;;
  mret None.

(** [createContext]: the configuration and the logger, stored in a
    fresh context. *)
Definition createContext (mlConfig : MoLingConfig) : Context :=
  {| ctx_mlConfig := mlConfig; ctx_logger := IsLogger |}.

(** [mlsCommandFunc], the [RunE] of the root command (the set-up of the
    logger, which precedes everything else, is left out), up to the moment
    the shutdown signal arrives and from there to its return. Its result
    is what [rootCmd.Execute] hands to [Execute]. [cancel] is deferred,
    so it runs once more on every return that follows the creation of the
    context. *)
Definition mlsCommandFunc (w : World) (mlConfig : MoLingConfig)
    (entries : list (MoLingServerType * ServiceFactory)) : M (option error) :=
  let pidFilePath := filepath_Join (BasePath mlConfig) MLPidName in
  e ← checkRunningInstance w pidFilePath;
  match e with
  | Some err => mret (Some err)
  | None =>
      let configFilePath := filepath_Join (BasePath mlConfig) (ConfigFile mlConfig) in
      c ← loadConfigFile w configFilePath;
      match c with
      | inr err => mret (Some err)
      | inl configJson =>
          let ctx := createContext mlConfig in
          r ← initServices mlConfig ctx configJson entries;
          match r with
          | inr err =>
              call EvCancel (Returns tt);;
              call EvCancel (Returns tt);;
              mret (Some err)
          | inl (servicesList, closers) =>
              e ← startMoLingServer servicesList;
              match e with
              | Some err =>
                  call EvCancel (Returns tt);;
                  call EvCancel (Returns tt);;
                  mret (Some err)
              | None =>
                  res ← waitForShutdownSignal (schedule w)
                          (rangeClosers w closers) pidFilePath
                          (removePIDFile w pidFilePath);
                  call EvCancel (Returns tt);;
                  mret res
              end
          end
      end
  end.

(** [MoLingConfig.Check]: not implemented, it panics. *)
Definition MoLingConfig_Check (cfg : MoLingConfig) : Outcome (option error) :=
  Panics "not implemented yet".



(** The constant [BrowserPromptDefault] of package browser. *)
Definition BrowserPromptDefault : string := "
You are an AI-powered browser automation assistant capable of performing a wide range of web interactions and debugging tasks. Your capabilities include:

1. **Navigation**: Navigate to any specified URL to load web pages.

2. **Screenshot Capture**: Take full-page screenshots or capture specific elements using CSS selectors, with customizable dimensions (default: 1700x1100 pixels).

3. **Element Interaction**:
   - Click on elements identified by CSS selectors
   - Hover over specified elements
   - Fill input fields with provided values
   - Select options in dropdown menus

4. **JavaScript Execution**:
   - Run arbitrary JavaScript code in the browser context
   - Evaluate scripts and return results

5. **Debugging Tools**:
   - Enable/disable JavaScript debugging mode
   - Set breakpoints at specific script locations (URL + line number + optional column/condition)
   - Remove existing breakpoints by ID
   - Pause and resume script execution
   - Retrieve current call stack when paused

For all actions requiring element selection, you must use precise CSS selectors. When capturing screenshots, you can specify either the entire page or target specific elements. For debugging operations, you can precisely control execution flow and inspect runtime behavior.

Please provide clear instructions including:
- The specific action you want performed
- Required parameters (URLs, selectors, values, etc.)
- Any optional parameters (dimensions, conditions, etc.)
- Expected outcomes where relevant

You should confirm actions before execution when dealing with sensitive operations or destructive commands. Report back with clear status updates, success/failure indicators, and any relevant output or captured data.
".

(** ** Providers: capability storage and the adapter

    The descriptor and handler types of the protocol library (mcp-go) are
    parameters. *)

Section Providers.
Context {Resource ResourceTemplate : Type}.
Context `{Countable Resource, Countable ResourceTemplate}.
Context {Prompt Tool : Type}.
Context {ResourceHandlerFunc ResourceTemplateHandlerFunc PromptHandlerFunc
         ToolHandlerFunc NotificationHandlerFunc : Type}.

(** abstract.PromptEntry and its two accessors. *)
Record PromptEntry : Type := {
  PromptVar : Prompt;
  HandlerFunc : PromptHandlerFunc
}.

Definition PromptEntry_Prompt (pe : PromptEntry) : Prompt := PromptVar pe.
Definition PromptEntry_Handler (pe : PromptEntry) : PromptHandlerFunc :=
  HandlerFunc pe.

(** server.ServerTool. *)
Record ServerTool : Type := {
  st_Tool : Tool;
  st_Handler : ToolHandlerFunc
}.

(** abstract.MLService: the capability collections every provider
    embeds, and the global configuration it points to. The mutex that
    guards the collections has no counterpart: the embedding is
    sequential. *)
Record MLService : Type := {
  resources : gmap Resource ResourceHandlerFunc;
  resourcesTemplates : gmap ResourceTemplate ResourceTemplateHandlerFunc;
  prompts : list PromptEntry;
  tools : list ServerTool;
  notificationHandlers : gmap string NotificationHandlerFunc;
  mlConfig : MoLingConfig
}.

(** [NewMLService]. *)
Definition NewMLService (cfg : MoLingConfig) : MLService :=
  {| resources := ∅;
     resourcesTemplates := ∅;
     prompts := [];
     tools := [];
     notificationHandlers := ∅;
     mlConfig := cfg |}.

(** [AddResource]: [mls.resources[rs] = hr]. *)
Definition AddResource (rs : Resource) (hr : ResourceHandlerFunc)
    (mls : MLService) : MLService :=
  {| resources := <[rs := hr]> (resources mls);
     resourcesTemplates := resourcesTemplates mls;
     prompts := prompts mls;
     tools := tools mls;
     notificationHandlers := notificationHandlers mls;
     mlConfig := mlConfig mls |}.

(** [AddResourceTemplate]: [mls.resourcesTemplates[rt] = hr]. *)
Definition AddResourceTemplate (rt : ResourceTemplate)
    (hr : ResourceTemplateHandlerFunc) (mls : MLService) : MLService :=
  {| resources := resources mls;
     resourcesTemplates := <[rt := hr]> (resourcesTemplates mls);
     prompts := prompts mls;
     tools := tools mls;
     notificationHandlers := notificationHandlers mls;
     mlConfig := mlConfig mls |}.

(** [AddPrompt]: [mls.prompts = append(mls.prompts, pe)]. *)
Definition AddPrompt (pe : PromptEntry) (mls : MLService) : MLService :=
  {| resources := resources mls;
     resourcesTemplates := resourcesTemplates mls;
     prompts := prompts mls ++ [pe];
     tools := tools mls;
     notificationHandlers := notificationHandlers mls;
     mlConfig := mlConfig mls |}.

(** [AddTool]: appends [server.ServerTool{Tool: tool, Handler: handler}]. *)
Definition AddTool (tool : Tool) (handler : ToolHandlerFunc)
    (mls : MLService) : MLService :=
  {| resources := resources mls;
     resourcesTemplates := resourcesTemplates mls;
     prompts := prompts mls;
     tools := tools mls ++ [{| st_Tool := tool; st_Handler := handler |}];
     notificationHandlers := notificationHandlers mls;
     mlConfig := mlConfig mls |}.

(** [AddNotificationHandler]: [mls.notificationHandlers[name] = handler]. *)
Definition AddNotificationHandler (name : string)
    (handler : NotificationHandlerFunc) (mls : MLService) : MLService :=
  {| resources := resources mls;
     resourcesTemplates := resourcesTemplates mls;
     prompts := prompts mls;
     tools := tools mls;
     notificationHandlers := <[name := handler]> (notificationHandlers mls);
     mlConfig := mlConfig mls |}.

(** The read accessors. *)
Definition Resources (mls : MLService) := resources mls.
Definition ResourceTemplates (mls : MLService) := resourcesTemplates mls.
Definition Prompts (mls : MLService) := prompts mls.
Definition Tools (mls : MLService) := tools mls.
Definition NotificationHandlers (mls : MLService) := notificationHandlers mls.
Definition MlConfig (mls : MLService) : MoLingConfig := mlConfig mls.


(** [MLService.Name]. *)
Definition MLService_Name (mls : MLService) : MoLingServerType := "MLService".

(** The add-operations a provider performs on itself while it sets up. *)
Inductive AddOp : Type :=
| OpResource (rs : Resource) (hr : ResourceHandlerFunc)
| OpResourceTemplate (rt : ResourceTemplate) (hr : ResourceTemplateHandlerFunc)
| OpPrompt (pe : PromptEntry)
| OpTool (tool : Tool) (handler : ToolHandlerFunc)
| OpNotificationHandler (name : string) (handler : NotificationHandlerFunc).

Definition applyOp (mls : MLService) (op : AddOp) : MLService :=
  match op with
  | OpResource rs hr => AddResource rs hr mls
  | OpResourceTemplate rt hr => AddResourceTemplate rt hr mls
  | OpPrompt pe => AddPrompt pe mls
  | OpTool tool handler => AddTool tool handler mls
  | OpNotificationHandler name handler => AddNotificationHandler name handler mls
  end.

Definition applyOps (ops : list AddOp) (mls : MLService) : MLService :=
  foldl applyOp mls ops.

(** The prompt entries among a sequence of add-operations, in order. *)
Definition promptOps (ops : list AddOp) : list PromptEntry :=
  omap (λ op, match op with OpPrompt pe => Some pe | _ => None end) ops.

(** The calls the adapter makes on the protocol endpoint
    (server.MCPServer). *)
Inductive EndpointCall : Type :=
| CallAddResource (r : Resource) (h : ResourceHandlerFunc)
| CallAddResourceTemplate (rt : ResourceTemplate) (h : ResourceTemplateHandlerFunc)
| CallAddTools (ts : list ServerTool)
| CallAddNotificationHandler (n : string) (h : NotificationHandlerFunc)
| CallAddPrompt (p : Prompt) (h : PromptHandlerFunc).

(** The orders in which the three [range] loops of [loadService] visit
    the maps of the provider. *)
Record RangeOrders : Type := {
  resourcesOrder : list (Resource * ResourceHandlerFunc);
  resourceTemplatesOrder : list (ResourceTemplate * ResourceTemplateHandlerFunc);
  notificationHandlersOrder : list (string * NotificationHandlerFunc)
}.

Definition orders_of (srv : MLService) (o : RangeOrders) : Prop :=
  resourcesOrder o ≡ₚ map_to_list (Resources srv)
  ∧ resourceTemplatesOrder o ≡ₚ map_to_list (ResourceTemplates srv)
  ∧ notificationHandlersOrder o ≡ₚ map_to_list (NotificationHandlers srv).

(** [MoLingServer.loadService]: the endpoint is the sequence of calls
    received so far. The accessors called through the interface are the
    ones every provider inherits from the embedded MLService. *)
Definition loadService (o : RangeOrders) (srv : MLService)
    (server : list EndpointCall) : list EndpointCall * option error :=
  let server := server ++ map (λ e, CallAddResource e.1 e.2) (resourcesOrder o) in
  let server := server ++ map (λ e, CallAddResourceTemplate e.1 e.2)
                              (resourceTemplatesOrder o) in
  let server := server ++ [CallAddTools (Tools srv)] in
  let server := server ++ map (λ e, CallAddNotificationHandler e.1 e.2)
                              (notificationHandlersOrder o) in
  let server := server ++ map (λ pe, CallAddPrompt (PromptEntry_Prompt pe)
                                                   (PromptEntry_Handler pe))
                              (Prompts srv) in
  (server, None).

(** The stage of the adapter a call belongs to. *)
Definition stage (c : EndpointCall) : nat :=
  match c with
  | CallAddResource _ _ => 0
  | CallAddResourceTemplate _ _ => 1
  | CallAddTools _ => 2
  | CallAddNotificationHandler _ _ => 3
  | CallAddPrompt _ _ => 4
  end.

(** A call does not belong to a later stage than another. *)
Definition staged (c1 c2 : EndpointCall) : Prop := stage c1 ≤ stage c2.

(** The prompts an endpoint has been given, in the order of the calls. *)
Definition promptCalls (calls : list EndpointCall)
  : list (Prompt * PromptHandlerFunc) :=
  omap (λ c, match c with CallAddPrompt p h => Some (p, h) | _ => None end) calls.


(** *** The browser provider (pkg/services/browser) *)

Record BrowserConfig : Type := {
  PromptFile : string;
  prompt : string;
  Headless : bool;
  Timeout : Z;
  Proxy : string;
  UserAgent : string;
  DefaultLanguage : string;
  URLTimeout : Z;
  SelectorQueryTimeout : Z;
  DataPath : string;
  BrowserDataPath : string
}.

Definition with_prompt (p : string) (cfg : BrowserConfig) : BrowserConfig :=
  {| PromptFile := PromptFile cfg; prompt := p; Headless := Headless cfg;
     Timeout := Timeout cfg; Proxy := Proxy cfg; UserAgent := UserAgent cfg;
     DefaultLanguage := DefaultLanguage cfg; URLTimeout := URLTimeout cfg;
     SelectorQueryTimeout := SelectorQueryTimeout cfg;
     DataPath := DataPath cfg; BrowserDataPath := BrowserDataPath cfg |}.

Definition with_paths (data browser : string) (cfg : BrowserConfig)
  : BrowserConfig :=
  {| PromptFile := PromptFile cfg; prompt := prompt cfg;
     Headless := Headless cfg; Timeout := Timeout cfg; Proxy := Proxy cfg;
     UserAgent := UserAgent cfg; DefaultLanguage := DefaultLanguage cfg;
     URLTimeout := URLTimeout cfg;
     SelectorQueryTimeout := SelectorQueryTimeout cfg;
     DataPath := data; BrowserDataPath := browser |}.

(** The answers of the operating system and of the libraries the
    browser provider calls. *)
Inductive StatResult : Type :=
| StatOk
| StatNotExist
| StatError (err : error).

Record Host : Type := {
  os_TempDir : string;
  os_ReadFile : string → string + error;
  os_Stat : string → StatResult;
  os_RemoveAll : string → option error;
  os_MkdirAll : string → option error;
  utils_CreateDirectory : string → option error;
  chromedp_Cancel : option error;
  json_Marshal : BrowserConfig → string + error;
  utils_MergeJSONToStruct : ∀ T : Type, T → gmap string Json → T * option error
}.

Context (host : Host).

(** [BrowserConfig.Check]. *)
Definition BrowserConfig_Check (cfg : BrowserConfig)
  : BrowserConfig * option error :=
  let cfg := with_prompt BrowserPromptDefault cfg in
  if bool_decide (Timeout cfg ≤ 0)%Z
  then (cfg, Some "timeout must be greater than 0")
  else if bool_decide (URLTimeout cfg ≤ 0)%Z
  then (cfg, Some "URL timeout must be greater than 0")
  else if bool_decide (SelectorQueryTimeout cfg ≤ 0)%Z
  then (cfg, Some "selector Query timeout must be greater than 0")
  else if bool_decide (PromptFile cfg ≠ "")
  then match os_ReadFile host (PromptFile cfg) with
       | inr err =>
           (cfg, Some ("failed to read prompt file:" +:+ PromptFile cfg
                       +:+ ", error: " +:+ err))
       | inl read => (with_prompt read cfg, None)
       end
  else (cfg, None).

(** [NewBrowserConfig]. *)
Definition NewBrowserConfig : BrowserConfig :=
  {| PromptFile := "";
     prompt := "";
     Headless := false;
     Timeout := 30;
     Proxy := "";
     UserAgent := "Mozilla/5.0 (Macintosh; Intel Mac OS X 10_15_7) AppleWebKit/537.36 (KHTML, like Gecko) Chrome/134.0.0.0 Safari/537.36";
     DefaultLanguage := "en-US";
     URLTimeout := 10;
     SelectorQueryTimeout := 20;
     DataPath := filepath_Join (filepath_Join (os_TempDir host) ".moling") "data";
     BrowserDataPath := "" |}.

(** [BrowserServer]: the embedded MLService, the typed configuration
    and the two cancel functions, [nil] until [Init] assigns them. *)
Inductive CancelFunc : Type := CancelOfAllocator | CancelOfChrome.

Record BrowserServer : Type := {
  bs_MLService : MLService;
  config : BrowserConfig;
  cancelAlloc : option CancelFunc;
  cancelChrome : option CancelFunc
}.

Definition BrowserServerName : MoLingServerType := "Browser".

(** [NewBrowserServer]. *)
Definition NewBrowserServer (ctx : Context) : Outcome (BrowserServer + error) :=
  let bc := NewBrowserConfig in
  let globalConf := ctx_mlConfig ctx in
  let bc := with_paths (filepath_Join (BasePath globalConf) "data")
                       (filepath_Join (BasePath globalConf) "browser") bc in
  match ctx_logger ctx with
  | NotLogger typeName =>
      Returns (inr ("BrowserServer: invalid logger type: " +:+ typeName))
  | IsLogger =>
      Returns (inl {| bs_MLService := NewMLService globalConf;
                      config := bc;
                      cancelAlloc := None;
                      cancelChrome := None |})
  end.

(** [BrowserServer.initBrowser]; the log lines it writes are left out. *)
Definition initBrowser (userDataDir : string) : option error :=
  match os_Stat host userDataDir with
  | StatError err => Some ("failed to stat user data directory: " +:+ err)
  | StatOk =>
      let singletonLock := filepath_Join userDataDir "SingletonLock" in
      match os_Stat host singletonLock with
      | StatOk => let _ := os_RemoveAll host singletonLock in None
      | _ => None
      end
  | StatNotExist =>
      match os_MkdirAll host userDataDir with
      | Some err => Some ("failed to create user data directory: " +:+ err)
      | None => None
      end
  end.

(** The prompt and the thirteen tools [Init] registers, in its order;
    the descriptors are built by the protocol library. *)
Context (browser_prompt : PromptEntry).
Context (browser_tools : list (Tool * ToolHandlerFunc)).

Definition browserOps : list AddOp :=
  OpPrompt browser_prompt :: map (λ t, OpTool t.1 t.2) browser_tools.

(** [BrowserServer.Init]. *)
Definition BrowserServer_Init (bs : BrowserServer)
  : Outcome (BrowserServer * option error) :=
  match initBrowser (BrowserDataPath (config bs)) with
  | Some err => Returns (bs, Some ("failed to initialize browser: " +:+ err))
  | None =>
      match utils_CreateDirectory host (DataPath (config bs)) with
      | Some err =>
          Returns (bs, Some ("failed to create data directory: " +:+ err))
      | None =>
          Returns ({| bs_MLService := applyOps browserOps (bs_MLService bs);
                      config := config bs;
                      cancelAlloc := Some CancelOfAllocator;
                      cancelChrome := Some CancelOfChrome |}, None)
      end
  end.

(** Calling a [nil] function value. *)
Definition nilCall : string :=
  "runtime error: invalid memory address or nil pointer dereference".

(** [BrowserServer.Close]: it calls both cancel functions, then
    [chromedp.Cancel]. *)
Definition BrowserServer_Close (bs : BrowserServer) : Outcome (option error) :=
  match cancelAlloc bs with
  | None => Panics nilCall
  | Some _ =>
      match cancelChrome bs with
      | None => Panics nilCall
      | Some _ => Returns (chromedp_Cancel host)
      end
  end.

(** [BrowserServer.Config]. *)
Definition BrowserServer_Config (bs : BrowserServer) : string :=
  match json_Marshal host (config bs) with
  | inr err => "{}"
  | inl cfg => cfg
  end.

(** [BrowserServer.Name]. *)
Definition BrowserServer_Name (bs : BrowserServer) : MoLingServerType :=
  BrowserServerName.

(** [BrowserServer.LoadConfig]. *)
Definition BrowserServer_LoadConfig (bs : BrowserServer)
    (jsonData : gmap string Json) : BrowserServer * option error :=
  let '(cfg, err) := utils_MergeJSONToStruct host _ (config bs) jsonData in
  match err with
  | Some e =>
      ({| bs_MLService := bs_MLService bs; config := cfg;
          cancelAlloc := cancelAlloc bs; cancelChrome := cancelChrome bs |},
       Some e)
  | None =>
      let '(cfg, err) := BrowserConfig_Check cfg in
      ({| bs_MLService := bs_MLService bs; config := cfg;
          cancelAlloc := cancelAlloc bs; cancelChrome := cancelChrome bs |},
       err)
  end.

(** The browser provider behind the Service interface. *)
#[export] Instance BrowserServer_ops : ServiceOps BrowserServer := {|
  Name := BrowserServer_Name;
  LoadConfig := λ bs jsonData, Returns (BrowserServer_LoadConfig bs jsonData);
  Init := BrowserServer_Init;
  Close := BrowserServer_Close;
  Config := BrowserServer_Config
|}.

Definition browserFactory : ServiceFactory := λ ctx,
  match NewBrowserServer ctx with
  | Returns (inl bs) => Returns (inl (MkService BrowserServer BrowserServer_ops bs))
  | Returns (inr err) => Returns (inr err)
  | Panics msg => Panics msg
  | Blocks => Blocks
  end.

(** *** The base implementation *)

(** [MLService.LoadConfig]: merge, then [MoLingConfig.Check]. *)
Definition MLService_LoadConfig (mls : MLService) (jsonData : gmap string Json)
  : Outcome (MLService * option error) :=
  let '(cfg, err) := utils_MergeJSONToStruct host _ (MlConfig mls) jsonData in
  let mls := {| resources := resources mls;
                resourcesTemplates := resourcesTemplates mls;
                prompts := prompts mls;
                tools := tools mls;
                notificationHandlers := notificationHandlers mls;
                mlConfig := cfg |} in
  match err with
  | Some e => Returns (mls, Some e)
  | None =>
      match MoLingConfig_Check (MlConfig mls) with
      | Returns e => Returns (mls, e)
      | Panics msg => Panics msg
      | Blocks => Blocks
      end
  end.

(** *** The adapter over all providers *)

(** [MoLingServer.init]: the providers are loaded in turn, each with the
    orders its maps are visited in; the result is the error of the last
    load. *)
Fixpoint MoLingServer_init (services : list (RangeOrders * MLService))
    (err : option error) (server : list EndpointCall)
  : list EndpointCall * option error :=
  match services with
  | [] => (server, err)
  | (o, srv) :: rest =>
      let '(server', err') := loadService o srv server in
      MoLingServer_init rest err' server'
  end.

(** [NewMoLingServer]: a fresh endpoint, then [init]. *)
Definition NewMoLingServer (services : list (RangeOrders * MLService))
  : list EndpointCall * option error :=
  MoLingServer_init services None [].

(** The resources and the tools among a sequence of add-operations, in
    order. *)
Definition resourceOps (ops : list AddOp)
  : list (Resource * ResourceHandlerFunc) :=
  omap (λ op, match op with OpResource rs hr => Some (rs, hr) | _ => None end) ops.

Definition toolOps (ops : list AddOp) : list ServerTool :=
  omap (λ op, match op with
              | OpTool tool handler =>
                  Some {| st_Tool := tool; st_Handler := handler |}
              | _ => None
              end) ops.

(** *** The browser provider: prompt and screenshot handlers *)

(** mcp.GetPromptResult, with the text messages it carries. *)
Record PromptMessage : Type := {
  pm_Role : string;
  pm_Type : string;
  pm_Text : string
}.

Record GetPromptResult : Type := {
  gp_Description : string;
  gp_Messages : list PromptMessage
}.

(** [BrowserServer.handlePrompt]. *)
Definition BrowserServer_handlePrompt (bs : BrowserServer)
  : GetPromptResult * option error :=
  ({| gp_Description := "";
      gp_Messages := [{| pm_Role := "user";
                         pm_Type := "text";
                         pm_Text := prompt (config bs) |}] |}, None).

(** The value of a tool argument behind [interface{}]: a value decoded
    from JSON, whose numbers are float64, a Go int, or a value of some
    other type. *)
Inductive GoValue : Type :=
| GoJson (j : Json)
| GoInt (z : Z)
| GoOther.

(** [v.(string)] and [v.(int)] on a map lookup. *)
Definition asString (v : option GoValue) : option string :=
  match v with
  | Some (GoJson (JString s)) => Some s
  | _ => None
  end.

Definition asInt (v : option GoValue) : option Z :=
  match v with
  | Some (GoInt z) => Some z
  | _ => None
  end.

(** Whether the character is one of the characters of the cut set. *)
Fixpoint inCutset (c : ascii) (cutset : string) : bool :=
  match cutset with
  | EmptyString => false
  | String d rest => Ascii.eqb c d || inCutset c rest
  end.

(** [strings.TrimRight]: the string without its trailing characters that
    belong to the cut set. *)
Fixpoint strings_TrimRight (s cutset : string) : string :=
  match s with
  | EmptyString => EmptyString
  | String c s' =>
      match strings_TrimRight s' cutset with
      | EmptyString =>
          if inCutset c cutset then EmptyString else String c EmptyString
      | String d rest => String c (String d rest)
      end
  end.

(** What the browser is asked to do for a screenshot. *)
Inductive ScreenshotAction : Type :=
| FullScreenshot (width height : Z)
| ElementScreenshot (selector : string).

(** The result of a tool call. *)
Inductive ToolResult : Type :=
| ToolResultText (text : string)
| ToolResultError (text : string).

(** A 64-bit signed integer ([int], [time.Duration]) after an operation
    that may overflow. *)
Definition wrap64 (z : Z) : Z :=
  ((z + 2 ^ 63) `mod` 2 ^ 64 - 2 ^ 63)%Z.

(** [time.Second], in nanoseconds. *)
Definition time_Second : Z := 1000000000.

(** The answers of the browser, of the random source and of the file
    system during one screenshot: [chromedp.Run] under a time-out (a
    [time.Duration], in nanoseconds), the decimal rendering of
    [rand.Int()], [os.WriteFile]. *)
Record ScreenshotHost : Type := {
  sh_Run : Z → ScreenshotAction → string + error;
  sh_randInt : string;
  sh_WriteFile : string → string → option error
}.

(** One call of [handleScreenshot]: what the browser was asked, the file
    written, and the result. *)
Record ScreenshotRun : Type := {
  sr_action : option (Z * ScreenshotAction);
  sr_written : option (string * string);
  sr_result : ToolResult;
  sr_error : option error
}.

(** [BrowserServer.handleScreenshot]; the log lines are left out. *)
Definition BrowserServer_handleScreenshot (sh : ScreenshotHost)
    (bs : BrowserServer) (arguments : gmap string GoValue) : ScreenshotRun :=
  match asString (arguments !! "name") with
  | None =>
      {| sr_action := None; sr_written := None;
         sr_result := ToolResultError "name must be a string";
         sr_error := None |}
  | Some name =>
      let selector := default "" (asString (arguments !! "selector")) in
      let width := default 0%Z (asInt (arguments !! "width")) in
      let height := default 0%Z (asInt (arguments !! "height")) in
      let width := if decide (width = 0)%Z then 1280%Z else width in
      let height := if decide (height = 0)%Z then 800%Z else height in
      let timeoutDuration :=
        wrap64 (wrap64 (SelectorQueryTimeout (config bs) * 3) * time_Second) in
      let action :=
        if decide (selector = "") then FullScreenshot width height
        else ElementScreenshot selector in
      match sh_Run sh timeoutDuration action with
      | inr err =>
          {| sr_action := Some (timeoutDuration, action); sr_written := None;
             sr_result := ToolResultError ("截图失败: " +:+ err);
             sr_error := None |}
      | inl buf =>
          let newName :=
            filepath_Join (DataPath (config bs))
              (strings_TrimRight name ".png" +:+ "_" +:+ sh_randInt sh +:+ ".png") in
          match sh_WriteFile sh newName buf with
          | Some err =>
              {| sr_action := Some (timeoutDuration, action);
                 sr_written := None;
                 sr_result := ToolResultError ("保存截图失败: " +:+ err);
                 sr_error := None |}
          | None =>
              {| sr_action := Some (timeoutDuration, action);
                 sr_written := Some (newName, buf);
                 sr_result := ToolResultText ("截图已保存至: " +:+ newName);
                 sr_error := None |}
          end
      end
  end.

End Providers.

(** ** Scripted providers

    A provider whose methods answer as scripted, used to run the
    orchestrator on concrete registries. *)

Record Scripted : Type := {
  sc_name : MoLingServerType;
  sc_loadConfig : Outcome (option error);
  sc_init : Outcome (option error);
  sc_close : Outcome (option error)
}.

Definition scripted_step (s : Scripted) (o : Outcome (option error))
  : Outcome (Scripted * option error) :=
  match o with
  | Returns e => Returns (s, e)
  | Panics msg => Panics msg
  | Blocks => Blocks
  end.

#[export] Instance Scripted_ops : ServiceOps Scripted := {|
  Name := sc_name;
  LoadConfig := λ s _, scripted_step s (sc_loadConfig s);
  Init := λ s, scripted_step s (sc_init s);
  Close := sc_close;
  Config := λ _, "{}"
|}.

Definition scripted (s : Scripted) : Service := MkService Scripted Scripted_ops s.

(** A provider that loads, initialises and closes without error. *)
Definition healthy (name : MoLingServerType) : Scripted :=
  {| sc_name := name;
     sc_loadConfig := Returns None;
     sc_init := Returns None;
     sc_close := Returns None |}.

Definition factoryOf (s : Scripted) : ServiceFactory :=
  λ _, Returns (inl (scripted s)).

Definition failingFactory (err : error) : ServiceFactory :=
  λ _, Returns (inr err).

(** A configuration whose only relevant field is the module selection. *)
Definition configWithModule (m : string) : MoLingConfig :=
  {| ConfigFile := "config/config.json"; BasePath := "/home/user/.moling";
     Version := "unknown"; ListenAddr := ""; Debug := false; Module := m;
     Username := ""; HomeDir := ""; SystemInfo := ""; Description := "";
     Command := ""; Args := ""; BaseUrl := ""; ServerName := "" |}.

(** The names of the providers constructed, and of those initialised,
    according to a trace. *)
Definition constructed (t : list Event) : list MoLingServerType :=
  omap (λ e, match e with EvFactory k => Some k | _ => None end) t.

Definition initialised (t : list Event) : list MoLingServerType :=
  omap (λ e, match e with EvInit n => Some n | _ => None end) t.

Definition configLoaded (t : list Event) : list MoLingServerType :=
  omap (λ e, match e with EvLoadConfig n _ => Some n | _ => None end) t.

(** Whether the loop of [initServices] goes on to start the provider
    registered under [name]: the condition under which it does not
    [continue]. *)
Definition selected (moduleList : list string) (name : MoLingServerType) : bool :=
  negb (bool_decide (0 < length moduleList)
        && negb (StringInSlice name moduleList)).

(** The line the loop logs when it skips a provider. *)
Definition skipLog (moduleList : list string) (name : MoLingServerType) : Event :=
  EvLog DebugLevel None
    ("initServices debug, module " +:+ name +:+ " not in "
     +:+ fmt_strings moduleList +:+ ", skip").

(** The line the loop logs before it starts a provider, when a module
    list is in force. *)
Definition startLog (moduleList : list string) (name : MoLingServerType)
  : list Event :=
  if bool_decide (0 < length moduleList)
  then [EvLog DebugLevel None
          ("initServices debug, starting " +:+ name +:+ " service")]
  else [].

(** The registry of the release: the three providers, each constructed
    and initialised without error. *)
Definition releaseEntries : list (MoLingServerType * ServiceFactory) :=
  [("Browser", factoryOf (healthy "Browser"));
   ("Command", factoryOf (healthy "Command"));
   ("FileSystem", factoryOf (healthy "FileSystem"))].

(** A provider whose [Init] returns the error [e]. *)
Definition failingInit (name : MoLingServerType) (e : error) : Scripted :=
  {| sc_name := name;
     sc_loadConfig := Returns None;
     sc_init := Returns (Some e);
     sc_close := Returns None |}.

(** A provider whose [Close] answers as given. *)
Definition closingWith (name : MoLingServerType) (o : Outcome (option error))
  : Scripted :=
  {| sc_name := name;
     sc_loadConfig := Returns None;
     sc_init := Returns None;
     sc_close := o |}.

(** Three providers, the second of which fails in [Init]. *)
Definition abcEntries : list (MoLingServerType * ServiceFactory) :=
  [("Alpha", factoryOf (healthy "Alpha"));
   ("Beta", factoryOf (failingInit "Beta" "boom"));
   ("Gamma", factoryOf (healthy "Gamma"))].

(** A run in which the pid file can be created and removed, there is no
    configuration file, and every [Close] takes 10 ms. *)
Definition quietWorld : World :=
  {| createPIDFile := λ _, None;
     removePIDFile := λ _, None;
     readConfigFile := λ _, inl None;
     rangeClosers := map_to_list;
     schedule := {| closeTime := λ _, 10; onTie := CaseDone |} |}.

(** A host on which every call succeeds; [chromedp.Cancel] is given a
    context that is not a browser context and reports so. *)
Definition quietHost : Host :=
  {| os_TempDir := "/tmp";
     os_ReadFile := λ _, inr "no such file or directory";
     os_Stat := λ _, StatOk;
     os_RemoveAll := λ _, None;
     os_MkdirAll := λ _, None;
     utils_CreateDirectory := λ _, None;
     chromedp_Cancel := Some "invalid context";
     json_Marshal := λ _, inl "{}";
     utils_MergeJSONToStruct := λ T x _, (x, None) |}.

(** A host on which the browser data directory cannot be inspected and
    the configuration cannot be serialised. *)
Definition deniedHost : Host :=
  {| os_TempDir := "/tmp";
     os_ReadFile := λ _, inr "permission denied";
     os_Stat := λ _, StatError "permission denied";
     os_RemoveAll := λ _, Some "permission denied";
     os_MkdirAll := λ _, Some "permission denied";
     utils_CreateDirectory := λ _, Some "permission denied";
     chromedp_Cancel := Some "invalid context";
     json_Marshal := λ _, inr "json: unsupported value";
     utils_MergeJSONToStruct := λ T x _, (x, None) |}.

(** Descriptors and handlers named by strings, for concrete runs of the
    browser provider and of the adapter. *)
Definition demoPrompt : @PromptEntry string string :=
  {| PromptVar := "browser_prompt"; HandlerFunc := "handlePrompt" |}.

Definition demoTools : list (string * string) :=
  [("browser_navigate", "handleNavigate");
   ("browser_screenshot", "handleScreenshot");
   ("browser_click", "handleClick");
   ("browser_fill", "handleFill");
   ("browser_select", "handleSelect");
   ("browser_hover", "handleHover");
   ("browser_evaluate", "handleEvaluate");
   ("browser_debug_enable", "handleDebugEnable");
   ("browser_set_breakpoint", "handleSetBreakpoint");
   ("browser_remove_breakpoint", "handleRemoveBreakpoint");
   ("browser_pause", "handlePause");
   ("browser_resume", "handleResume");
   ("browser_get_callstack", "handleGetCallstack")].

Definition DemoBrowserServer : Type :=
  @BrowserServer string string _ _ _ _ string string string string string
                 string string.

Definition DemoMLService : Type :=
  @MLService string string _ _ _ _ string string string string string
             string string.

(** The browser provider as [NewBrowserServer] returns it for the default
    module selection. *)
Definition demoBrowser (host : Host) : DemoBrowserServer :=
  {| bs_MLService := NewMLService (configWithModule "all");
     config := with_paths "/home/user/.moling/data" "/home/user/.moling/browser"
                 (NewBrowserConfig host);
     cancelAlloc := None;
     cancelChrome := None |}.

(** The line the calling goroutine logs in each case of the [select]. *)
Definition caseMessage (c : SelectCase) : string :=
  match c with
  | CaseTimeout => "timeout, all services closed forcefully"
  | CaseDone => "all services closed gracefully"
  end.

(** What [waitForShutdownSignal] logs after the call that removes the pid
    file. *)
Definition pidFileLog (pidFilePath : string) (removed : option error)
  : list Event :=
  match removed with
  | Some e =>
      [EvLog ErrorLevel (Some e) ("failed to remove pid file " +:+ pidFilePath)]
  | None =>
      [EvLog InfoLevel None ("removed pid file " +:+ pidFilePath);
       EvLog InfoLevel None " Bye!"]
  end.

(** Three closers: one fails, one succeeds, one never returns. *)
Definition demoClosers : list (string * Service) :=
  [("Alpha", scripted (closingWith "Alpha" (Returns (Some "device busy"))));
   ("Beta", scripted (closingWith "Beta" (Returns None)));
   ("Gamma", scripted (closingWith "Gamma" Blocks))].

(** A registry that holds the browser provider alone. *)
Definition browserEntries : list (MoLingServerType * ServiceFactory) :=
  [("Browser",
    @browserFactory string string _ _ _ _ string string string string string
      string string quietHost demoPrompt demoTools)].

(** A configuration document with a section for a provider that is not
    registered. *)
Definition otherSectionOnly : option (gmap string Json) :=
  Some {[ "Other" := JObject ∅ ]}.

(** A provider that registers two prompts among other capabilities. *)
Definition demoOps
  : list (@AddOp string string string string string string string string string) :=
  [OpResource "file:///a" "readA";
   OpPrompt {| PromptVar := "first"; HandlerFunc := "handleFirst" |};
   OpTool "tool" "handleTool";
   OpNotificationHandler "notify" "handleNotify";
   OpPrompt {| PromptVar := "second"; HandlerFunc := "handleSecond" |};
   OpResourceTemplate "file:///{name}" "readNamed"].

Definition demoProvider : DemoMLService :=
  applyOps demoOps (NewMLService (configWithModule "all")).

Definition demoOrders
  : @RangeOrders string string string string string :=
  {| resourcesOrder := map_to_list (Resources demoProvider);
     resourceTemplatesOrder := map_to_list (ResourceTemplates demoProvider);
     notificationHandlersOrder := map_to_list (NotificationHandlers demoProvider) |}.

(** A configuration document without a section for the provider [name]:
    no document at all, or no such key. *)
Definition no_section (configJson : option (gmap string Json))
    (name : MoLingServerType) : Prop :=
  configJson ≫= (.!! name) = None.

(** ** The registry as the package initialisers fill it *)

(** The [init] functions of the provider packages run one after the
    other, each calling [RegisterServ]; [regs] lists the registrations in
    the order in which they happen. *)
Definition registerAll (regs : list (MoLingServerType * ServiceFactory))
    (serviceLists : gmap MoLingServerType ServiceFactory)
  : gmap MoLingServerType ServiceFactory :=
  foldl (λ m r, RegisterServ r.1 r.2 m) serviceLists regs.

(** The factory registered last under the name [n], if any. *)
Definition lastRegistered (n : MoLingServerType)
    (regs : list (MoLingServerType * ServiceFactory)) : option ServiceFactory :=
  snd <$> last (filter (λ r, r.1 = n) regs).

(** ** pkg/server: the transport of [Serve] *)

(** [p] removed from the front of [s], when [s] starts with [p]. *)
Fixpoint strip_prefix (p s : string) : option string :=
  match p, s with
  | EmptyString, _ => Some s
  | String a p', String b s' =>
      if Ascii.eqb a b then strip_prefix p' s' else None
  | String _ _, EmptyString => None
  end.

(** [strings.TrimPrefix]. *)
Definition strings_TrimPrefix (s p : string) : string :=
  default s (strip_prefix p s).

(** What [Serve] starts: the SSE server with its base URL, on the listen
    address as configured, or the stdio server. *)
Inductive Transport : Type :=
| ServeSSE (baseURL listenAddr : string)
| ServeStdio.

(** [MoLingServer.Serve], up to the call that starts the server. *)
Definition Serve_transport (listenAddr : string) : Transport :=
  if decide (listenAddr ≠ "")
  then ServeSSE ("http://" +:+ strings_TrimPrefix listenAddr "http://") listenAddr
  else ServeStdio.

(** ** cli/cmd/perrun.go: the directories of a run *)

(** [mlDirectories] of cli/cmd. *)
Definition mlDirectories : list string :=
  ["logs"; "config"; "browser"; "data"; "cache"].

(** The loop of [mlsCommandPreFunc] over the sub-directories: the
    directories it asked for, and the error that stopped it. *)
Fixpoint createDirectories (createDirectory : string → option error)
    (basePath : string) (dirNames : list string)
  : list string * option error :=
  match dirNames with
  | [] => ([], None)
  | dirName :: rest =>
      let path := filepath_Join basePath dirName in
      match createDirectory path with
      | Some err => ([path], Some err)
      | None =>
          let '(asked, err) := createDirectories createDirectory basePath rest in
          (path :: asked, err)
      end
  end.

(** [mlsCommandPreFunc]: the base directory, then its sub-directories.
    [createDirectory] answers for utils.CreateDirectory. *)
Definition mlsCommandPreFunc (createDirectory : string → option error)
    (basePath : string) : list string * option error :=
  match createDirectory basePath with
  | Some err => ([basePath], Some err)
  | None =>
      let '(asked, err) := createDirectories createDirectory basePath mlDirectories in
      (basePath :: asked, err)
  end.

(** ** cli/cmd/root.go: the watch on the parent process *)

(** [monitorParentProcess]: once a second it reads the parent pid, and
    when that is 1 it sends SIGTERM and stops. [ppidAt k] is what the
    poll number [k] reads; the result is the number of seconds after
    which the signal is sent, if it is sent within [fuel] polls. The pid
    read before the loop is only logged. *)
Fixpoint monitorParentProcess (ppidAt : nat → nat) (fuel : nat) (k : nat)
  : option nat :=
  match fuel with
  | 0 => None
  | S fuel' =>
      if decide (ppidAt k = 1) then Some (S k)
      else monitorParentProcess ppidAt fuel' (S k)
  end.

(** ** cli/cobrautl: the command tree *)

(** A cobra command, as far as the help needs it: its name and the
    sub-commands [Commands] returns. *)
Inductive CobraCommand : Type :=
| MkCommand (cmdName : string) (commands : list CobraCommand).

Definition Commands (cmd : CobraCommand) : list CobraCommand :=
  match cmd with MkCommand _ subs => subs end.

(** [getSubCommands]: every sub-command followed by its own
    sub-commands. *)
Fixpoint getSubCommands (cmd : CobraCommand) : list CobraCommand :=
  match cmd with
  | MkCommand _ subs =>
      (fix loop (l : list CobraCommand) : list CobraCommand :=
         match l with
         | [] => []
         | subCmd :: rest => (subCmd :: getSubCommands subCmd) ++ loop rest
         end) subs
  end.

(** The number of commands in the tree under [cmd], [cmd] included. *)
Fixpoint commandCount (cmd : CobraCommand) : nat :=
  match cmd with
  | MkCommand _ subs =>
      S ((fix loop (l : list CobraCommand) : nat :=
            match l with
            | [] => 0
            | subCmd :: rest => commandCount subCmd + loop rest
            end) subs)
  end.

(** [sub] lies below [cmd] in the tree. *)
Inductive below : CobraCommand → CobraCommand → Prop :=
| below_child cmd sub : sub ∈ Commands cmd → below sub cmd
| below_deeper cmd mid sub : mid ∈ Commands cmd → below sub mid → below sub cmd.

(** ** Reading traces *)

(** The events start-up produces: calls on factories and providers, and
    log lines. *)
Definition startupEvent (e : Event) : Prop :=
  match e with
  | EvFactory _ | EvLoadConfig _ _ | EvInit _ | EvLog _ _ _ => True
  | _ => False
  end.

(** The names of the providers adapted, according to a trace. *)
Definition adapted (t : list Event) : list MoLingServerType :=
  omap (λ e, match e with EvAdapt n => Some n | _ => None end) t.

(** Two closers that both return, the second after the deadline. *)
Definition slowClosers : list (string * Service) :=
  [("Alpha", scripted (closingWith "Alpha" (Returns None)));
   ("Slow", scripted (closingWith "Slow" (Returns None)))].

Definition slowSchedule : Schedule :=
  {| closeTime := λ name, if decide (name = "Slow") then 7000 else 20;
     onTie := CaseDone |}.

(** ** cli/cmd/config.go: the [config] command *)

(** The double quote, the line feed and the tab. *)
Definition dq : string := String (Ascii.ascii_of_nat 34) EmptyString.
Definition nl : string := String (Ascii.ascii_of_nat 10) EmptyString.
Definition tab : string := String (Ascii.ascii_of_nat 9) EmptyString.

(** The answers of the file system and of encoding/json during one run
    of the command: [os.ReadFile], [json.Unmarshal] into a map,
    [json.Marshal] of the global configuration, [json.Unmarshal] into
    [interface{}], [json.MarshalIndent], [os.WriteFile]. *)
Record ConfigHost : Type := {
  ch_ReadFile : string → string + error;
  ch_UnmarshalMap : string → option (gmap string Json) + error;
  ch_MarshalGlobal : MoLingConfig → string + error;
  ch_Unmarshal : string → Json + error;
  ch_MarshalIndent : Json → string + error;
  ch_WriteFile : string → string → option error
}.

(** [loadExistingConfig]: the decoded document, whether the file exists,
    and the error. *)
Definition loadExistingConfig (h : ConfigHost) (configFilePath : string)
  : option (gmap string Json) * bool * option error :=
  match ch_ReadFile h configFilePath with
  | inr _ => (None, false, None)
  | inl configData =>
      match ch_UnmarshalMap h configData with
      | inr err => (None, true, Some ("invalid JSON in config file: " +:+ err))
      | inl configJson => (configJson, true, None)
      end
  end.

(** [addGlobalConfig]: the buffer with the global configuration appended. *)
Definition addGlobalConfig (h : ConfigHost) (mlConfig : MoLingConfig)
    (bf : string) : string * option error :=
  match ch_MarshalGlobal h mlConfig with
  | inr err => (bf, Some ("Error marshaling GlobalConfig: " +:+ err))
  | inl mlConfigJson =>
      (bf +:+ tab +:+ dq +:+ "MoLingConfig" +:+ dq +:+ ":" +:+ nl
          +:+ tab +:+ mlConfigJson +:+ "," +:+ nl, None)
  end.

(** The text [addServiceConfigs] writes for one provider. *)
Definition serviceConfigText (srv : Service) : string :=
  tab +:+ dq +:+ svcName srv +:+ dq +:+ ":" +:+ nl
  +:+ tab +:+ svcConfig srv +:+ nl.

(** [addServiceConfigs]: every registered provider is started with
    [initSingleService] and its configuration is appended to the buffer.
    [entries] is the order in which [range services.ServiceList()] yields
    the registry. *)
Fixpoint addServiceConfigs (ctx : Context)
    (existingConfig : option (gmap string Json))
    (entries : list (MoLingServerType * ServiceFactory))
    (bf : string) (first : bool) : M (string * option error) :=
  match entries with
  | [] => mret (bf, None)
  | (srvName, nsv) :: rest =>
      r ← initSingleService ctx srvName nsv existingConfig;
      match r with
      | inr err => mret (bf, Some err)
      | inl srv =>
          let bf := if first then bf else bf +:+ "," +:+ nl in
          addServiceConfigs ctx existingConfig rest
            (bf +:+ serviceConfigText srv) false
      end
  end.

(** [buildConfigData]. *)
Definition buildConfigData (h : ConfigHost) (mlConfig : MoLingConfig)
    (ctx : Context) (existingConfig : option (gmap string Json))
    (entries : list (MoLingServerType * ServiceFactory))
  : M (string + error) :=
  let bf := nl +:+ "{" +:+ nl in
  match addGlobalConfig h mlConfig bf with
  | (_, Some err) => mret (inr err)
  | (bf, None) =>
      r ← addServiceConfigs ctx existingConfig entries bf true;
      match r with
      | (_, Some err) => mret (inr err)
      | (bf, None) => mret (inl (bf +:+ "}" +:+ nl))
      end
  end.

(** [formatConfigJson]. *)
Definition formatConfigJson (h : ConfigHost) (configData : string)
  : string + error :=
  match ch_Unmarshal h configData with
  | inr err =>
      inr ("Error unmarshaling JSON: " +:+ err +:+ ", payload:" +:+ configData)
  | inl jsonObj =>
      match ch_MarshalIndent h jsonObj with
      | inr err => inr ("Error marshaling JSON: " +:+ err)
      | inl formattedJson => inl formattedJson
      end
  end.

(** [saveConfigIfNeeded]: the file written, if any, and the error. *)
Definition saveConfigIfNeeded (h : ConfigHost) (formattedJson : string)
    (configFilePath : string) (hasConfig : bool)
  : option (string * string) * option error :=
  if negb hasConfig then
    match ch_WriteFile h configFilePath formattedJson with
    | Some err => (None, Some ("Error writing configuration file: " +:+ err))
    | None => (Some (configFilePath, formattedJson), None)
    end
  else (None, None).

(** [ConfigCommandFunc] (the set-up of the logger is left out): the file
    it wrote, if any, and its result. *)
Definition ConfigCommandFunc (h : ConfigHost) (mlConfig : MoLingConfig)
    (entries : list (MoLingServerType * ServiceFactory))
  : M (option (string * string) * option error) :=
  let ctx := createContext mlConfig in
  let configFilePath := filepath_Join (BasePath mlConfig) (ConfigFile mlConfig) in
  match loadExistingConfig h configFilePath with
  | (_, _, Some err) =>
      log ErrorLevel (Some err) "Failed to load config";;
      mret (None, Some err)
  | (existingConfig, hasConfig, None) =>
      r ← buildConfigData h mlConfig ctx existingConfig entries;
      match r with
      | inr err =>
          log ErrorLevel (Some err) "Failed to build config";;
          mret (None, Some err)
      | inl configData =>
          match formatConfigJson h configData with
          | inr err =>
              log ErrorLevel (Some err) "Failed to format config";;
              mret (None, Some err)
          | inl formattedJson =>
              match saveConfigIfNeeded h formattedJson configFilePath hasConfig with
              | (written, Some err) =>
                  log ErrorLevel (Some err) "Failed to save config";;
                  mret (written, Some err)
              | (written, None) =>
                  log InfoLevel None "Current loaded configuration file path";;
                  log InfoLevel None
                    "You can modify the configuration file to change the settings.";;
                  log InfoLevel None
                    ("Configuration details: " +:+ nl +:+ formattedJson);;
                  mret (written, None)
              end
          end
      end
  end.

(** The strings of a list with a separator between them. *)
Fixpoint joinWith (sep : string) (l : list string) : string :=
  match l with
  | [] => ""
  | [x] => x
  | x :: rest => x +:+ sep +:+ joinWith sep rest
  end.

(** The strings of a list, each behind a separator. *)
Fixpoint prefixedWith (sep : string) (l : list string) : string :=
  match l with
  | [] => ""
  | x :: rest => sep +:+ x +:+ prefixedWith sep rest
  end.

(** A host for the [config] command on which the configuration file
    exists already, and one on which it does not. *)
Definition existingConfigHost : ConfigHost :=
  {| ch_ReadFile := λ _, inl "{}";
     ch_UnmarshalMap := λ _, inl (Some ∅);
     ch_MarshalGlobal := λ _, inl "{}";
     ch_Unmarshal := λ _, inl (JObject ∅);
     ch_MarshalIndent := λ _, inl "{}";
     ch_WriteFile := λ _ _, None |}.

Definition freshConfigHost : ConfigHost :=
  {| ch_ReadFile := λ _, inr "no such file or directory";
     ch_UnmarshalMap := λ _, inl (Some ∅);
     ch_MarshalGlobal := λ _, inl "{}";
     ch_Unmarshal := λ _, inl (JObject ∅);
     ch_MarshalIndent := λ _, inl "{}";
     ch_WriteFile := λ _ _, None |}.

(** Every character of the string belongs to the cut set. *)
Fixpoint allInCutset (s cutset : string) : bool :=
  match s with
  | EmptyString => true
  | String c s' => inCutset c cutset && allInCutset s' cutset
  end.

(** Tool arguments as the protocol library decodes them from a JSON
    request. *)
Definition decodedArguments (arguments : gmap string Json) : gmap string GoValue :=
  GoJson <$> arguments.

(** A browser that takes every screenshot, and a request for a full-page
    screenshot with a size. *)
Definition demoScreenshotHost : ScreenshotHost :=
  {| sh_Run := λ _ _, inl "PNG";
     sh_randInt := "42";
     sh_WriteFile := λ _ _, None |}.

Definition demoScreenshotRequest : gmap string Json :=
  {[ "name" := JString "spring.png";
     "width" := JNumber 1920;
     "height" := JNumber 1080 ]}.

(** A host on which the prompt file can be read. *)
Definition promptHost : Host :=
  {| os_TempDir := "/tmp";
     os_ReadFile := λ _, inl "Browse with care.";
     os_Stat := λ _, StatOk;
     os_RemoveAll := λ _, None;
     os_MkdirAll := λ _, None;
     utils_CreateDirectory := λ _, None;
     chromedp_Cancel := None;
     json_Marshal := λ _, inl "{}";
     utils_MergeJSONToStruct := λ T x _, (x, None) |}.

(** A browser provider whose configuration names a prompt file. *)
Definition promptFileBrowser : DemoBrowserServer :=
  {| bs_MLService := NewMLService (configWithModule "all");
     config :=
       {| PromptFile := "/home/user/prompt.md"; prompt := "";
          Headless := false; Timeout := 30; Proxy := ""; UserAgent := "";
          DefaultLanguage := "en-US"; URLTimeout := 10;
          SelectorQueryTimeout := 20; DataPath := "/home/user/.moling/data";
          BrowserDataPath := "/home/user/.moling/browser" |};
     cancelAlloc := None;
     cancelChrome := None |}.


(** * Properties *)

(** Proof automation: case analysis on the calls a run makes, and the
    stage of the calls in the blocks of the adapter. *)

Ltac run_cases :=
  repeat (simpl in *; simplify_eq;
          match goal with
          | |- context [match ?x with _ => _ end] => destruct x eqn:?
          | H : context [match ?x with _ => _ end] |- _ => destruct x eqn:?
          end);
  simpl in *; simplify_eq.

Ltac unfold_run :=
  unfold initSingleService, call, log, trace, outcome,
         mbind, M_bind, mret, M_ret in *.

Ltac stage_of :=
  let c := fresh "c" in
  let Hc := fresh "Hc" in
  intros c;
  rewrite ?elem_of_app, ?list_elem_of_fmap, ?list_elem_of_singleton;
  intros Hc;
  repeat (destruct Hc as [Hc|Hc]);
  try (destruct Hc as (? & -> & _));
  subst; simpl; lia.

(** ** The trace monad *)

Lemma bind_returns {A B} (t : list Event) (a : A) (f : A → M B) :
  ((t, Returns a) : M A) ≫= f = (t ++ (f a).1, (f a).2).
Proof. unfold mbind, M_bind. by destruct (f a). Qed.

Lemma bind_trace_prefix {A B} (m : M A) (f : A → M B) :
  trace m `prefix_of` trace (m ≫= f).
Proof.
  destruct m as [t [a|msg|]]; unfold mbind, M_bind, trace; simpl.
  - destruct (f a) as [t' r]. by apply prefix_app_r.
  - done.
  - done.
Qed.

(** A list filtered down to nothing has no element that passes. *)
Lemma filter_none {A} (P : A → Prop) `{∀ x, Decision (P x)} (l : list A) :
  (∀ x, x ∈ l → ¬ P x) → filter P l = [].
Proof.
  induction l as [|x l IH]; intros Hl; [done|].
  rewrite filter_cons_False by (apply Hl; left).
  apply IH. intros y Hy. apply Hl. by right.
Qed.

(** ** The registry *)

(** The entries a [range] over a map yields for a key the map binds. *)
Lemma filter_key_map_to_list {V} (m : gmap string V) (n : string) (v : V) :
  m !! n = Some v →
  filter (λ e, e.1 = n) (map_to_list m) = [(n, v)].
Proof.
  intros Hm.
  assert (Hp : map_to_list m ≡ₚ (n, v) :: map_to_list (delete n m)).
  { rewrite <- (insert_delete_id m n v) at 1 by done.
    apply map_to_list_insert, lookup_delete_eq. }
  apply Permutation_singleton_r.
  rewrite Hp, filter_cons_True by done.
  rewrite filter_none; [done|].
  intros [k x] Hin%elem_of_map_to_list Hk. simpl in Hk. subst k.
  by rewrite lookup_delete_eq in Hin.
Qed.

(** C6. Registration is last-writer-wins: after the name [n] has been
    registered twice, [ServiceList] binds [n] to the factory registered
    last, the registry is the one the second registration alone would
    have produced (the first factory leaves no trace, and no error is
    reported), and a [range] over the registry meets [n] exactly once,
    with the latest factory. Other names keep their factories. *)
Theorem RegisterServ_last_writer_wins
    (serviceLists : gmap MoLingServerType ServiceFactory)
    (n : MoLingServerType) (f1 f2 : ServiceFactory) :
  let reg := ServiceList (RegisterServ n f2 (RegisterServ n f1 serviceLists)) in
  reg !! n = Some f2
  ∧ reg = RegisterServ n f2 serviceLists
  ∧ filter (λ e, e.1 = n) (map_to_list reg) = [(n, f2)]
  ∧ (∀ k, k ≠ n → reg !! k = serviceLists !! k).
Proof.
  unfold ServiceList, RegisterServ. cbn zeta.
  assert (Hn : <[n:=f2]> (<[n:=f1]> serviceLists) !! n = Some f2)
    by apply lookup_insert_eq.
  split_and!.
  - done.
  - apply insert_insert_eq.
  - by apply filter_key_map_to_list.
  - intros k Hk. by rewrite !lookup_insert_ne.
Qed.

(** ** Start-up: one provider *)

(** [initSingleService] calls the factory, once. *)
Lemma initSingleService_constructed ctx name f configJson :
  constructed (trace (initSingleService ctx name f configJson)) = [name].
Proof. unfold constructed. unfold_run. run_cases; done. Qed.

(** The error [initSingleService] returns is a new error: the message of
    the error of the failed step behind a prefix that names the step and
    the provider. *)
Lemma initSingleService_error ctx name f configJson t err :
  initSingleService ctx name f configJson = (t, Returns (inr err)) →
  (∃ e, f ctx = Returns (inr e)
        ∧ err = "failed to create service " +:+ name +:+ ": " +:+ e)
  ∨ (∃ s settings s' e,
        f ctx = Returns (inl s)
        ∧ svcLoadConfig s settings = Returns (s', Some e)
        ∧ err = "failed to load config for service " +:+ svcName s' +:+ ": " +:+ e)
  ∨ (∃ s s' e,
        svcInit s = Returns (s', Some e)
        ∧ err = "failed to initialize service " +:+ svcName s' +:+ ": " +:+ e).
Proof. intros Hrun. unfold_run. run_cases; eauto 10. Qed.



(** The provider [initSingleService] returns is one whose [Init] returned
    [nil]. *)
Lemma initSingleService_success ctx name f configJson t s :
  initSingleService ctx name f configJson = (t, Returns (inl s)) →
  ∃ s0, svcInit s0 = Returns (s, None).
Proof. intros Hrun. unfold_run. run_cases; eauto. Qed.

(** Without a section, [LoadConfig] is not called. *)
Lemma initSingleService_no_section ctx name f configJson :
  no_section configJson name →
  configLoaded (trace (initSingleService ctx name f configJson)) = [].
Proof. unfold no_section, configLoaded. intros Hno. unfold_run. run_cases; done. Qed.

(** ** Start-up: the loop *)

Lemma initServices_loop_skip ctx configJson moduleList name f rest svcs closers :
  selected moduleList name = false →
  initServices_loop ctx configJson moduleList ((name, f) :: rest) svcs closers
  = (skipLog moduleList name
       :: trace (initServices_loop ctx configJson moduleList rest svcs closers),
     outcome (initServices_loop ctx configJson moduleList rest svcs closers)).
Proof.
  unfold selected. intros Hsel%negb_false_iff.
  cbn [initServices_loop]. rewrite Hsel.
  unfold log. by rewrite bind_returns.
Qed.

Lemma initServices_loop_start ctx configJson moduleList name f rest svcs closers :
  selected moduleList name = true →
  initServices_loop ctx configJson moduleList ((name, f) :: rest) svcs closers
  = match initSingleService ctx name f configJson with
    | (t, Returns (inl service)) =>
        let next := initServices_loop ctx configJson moduleList rest
                      (svcs ++ [service]) (<[svcName service := service]> closers) in
        (startLog moduleList name ++ t ++ trace next, outcome next)
    | (t, Returns (inr err)) =>
        (startLog moduleList name ++ t
           ++ [EvLog ErrorLevel (Some err) ("failed to initialize service " +:+ name)],
         Returns (inr err))
    | (t, Panics msg) => (startLog moduleList name ++ t, Panics msg)
    | (t, Blocks) => (startLog moduleList name ++ t, Blocks)
    end.
Proof.
  unfold selected. intros Hsel%negb_true_iff.
  cbn [initServices_loop]. rewrite Hsel.
  destruct (initSingleService ctx name f configJson) as [t [[s|err]|msg|]];
    unfold startLog; case_bool_decide;
    unfold log, mbind, M_bind, mret, M_ret, trace, outcome; simpl;
    try destruct (initServices_loop _ _ _ _ _ _); simpl;
    by rewrite ?app_nil_r.
Qed.

Lemma constructed_app (t1 t2 : list Event) :
  constructed (t1 ++ t2) = constructed t1 ++ constructed t2.
Proof. apply omap_app. Qed.

Lemma constructed_startLog moduleList name :
  constructed (startLog moduleList name) = [].
Proof. unfold startLog. by case_bool_decide. Qed.

(** The providers constructed are selected ones, in the order of the
    iteration. *)
Lemma initServices_loop_constructed ctx configJson moduleList entries svcs closers :
  constructed (trace (initServices_loop ctx configJson moduleList entries svcs closers))
  `prefix_of` filter (λ n, selected moduleList n = true) entries.*1.
Proof.
  revert svcs closers.
  induction entries as [|[n f] rest IH]; intros svcs closers; [done|].
  destruct (selected moduleList n) eqn:Hsel.
  - rewrite initServices_loop_start by done.
    cbn [fmap list_fmap fst]. rewrite filter_cons_True by done.
    pose proof (initSingleService_constructed ctx n f configJson) as Hc.
    destruct (initSingleService ctx n f configJson) as [t [[s|err]|msg|]];
      unfold trace in *; simpl in *;
      rewrite !constructed_app, constructed_startLog, Hc; simpl.
    + apply prefix_cons, IH.
    + apply prefix_cons, prefix_nil.
    + apply prefix_cons, prefix_nil.
    + apply prefix_cons, prefix_nil.
  - rewrite initServices_loop_skip by done.
    cbn [fmap list_fmap fst]. rewrite filter_cons_False by (by rewrite Hsel).
    apply IH.
Qed.

(** When every provider is skipped, the loop constructs nothing and
    returns what it was given. *)
Lemma initServices_loop_none_selected ctx configJson moduleList entries svcs closers :
  (∀ n, n ∈ entries.*1 → selected moduleList n = false) →
  initServices_loop ctx configJson moduleList entries svcs closers
  = (skipLog moduleList <$> entries.*1, Returns (inl (svcs, closers))).
Proof.
  induction entries as [|[n f] rest IH]; intros Hsel; [done|].
  rewrite initServices_loop_skip by (apply Hsel; left).
  rewrite IH by (intros m Hm; apply Hsel; by right). done.
Qed.

Lemma constructed_skipLogs moduleList (names : list MoLingServerType) :
  constructed (skipLog moduleList <$> names) = [].
Proof. by induction names. Qed.

Lemma initialised_skipLogs moduleList (names : list MoLingServerType) :
  initialised (skipLog moduleList <$> names) = [].
Proof. by induction names. Qed.

(** C1 (what the code does at the flag default). With the module
    selection left at the default of the [--module] flag, [initServices]
    takes the default for a list of one provider name: whatever the
    registry holds under other names, it calls no factory, initialises no
    provider, and returns an empty provider list and an empty closers
    map. *)
Theorem initServices_flag_default_constructs_nothing
    (mlConfig : MoLingConfig) (ctx : Context)
    (configJson : option (gmap string Json))
    (entries : list (MoLingServerType * ServiceFactory)) :
  Module mlConfig = moduleFlagDefault →
  moduleFlagDefault ∉ entries.*1 →
  let run := initServices mlConfig ctx configJson entries in
  outcome run = Returns (inl ([], ∅))
  ∧ constructed (trace run) = []
  ∧ initialised (trace run) = [].
Proof.
  intros Hmod Hnot. cbn zeta. unfold initServices, moduleListOf.
  rewrite Hmod. rewrite decide_True by done.
  change (strings_Split_comma moduleFlagDefault) with [moduleFlagDefault].
  rewrite initServices_loop_none_selected.
  - unfold outcome, trace, constructed, initialised. simpl.
    by rewrite constructed_skipLogs, initialised_skipLogs.
  - intros n Hn. unfold selected, StringInSlice.
    rewrite bool_decide_true by (simpl; lia).
    rewrite bool_decide_false; [done|].
    intros ->%list_elem_of_singleton. done.
Qed.

Lemma initServices_flag_default_witness :
  let run := initServices (configWithModule "all")
               (createContext (configWithModule "all")) None releaseEntries in
  outcome run = Returns (inl ([], ∅))
  ∧ constructed (trace run) = []
  ∧ initialised (trace run) = [].
Proof.
  apply (initServices_flag_default_constructs_nothing
           (configWithModule "all")
           (createContext (configWithModule "all")) None releaseEntries).
  - reflexivity.
  - unfold moduleFlagDefault, releaseEntries. simpl.
    rewrite !elem_of_cons, elem_of_nil. intros [?|[?|[?|[]]]]; discriminate.
Defined.

(** With the module selection [Browser], the one value the sentinel test
    of [initServices] singles out, every registered provider is started,
    not the browser provider alone. *)
Example initServices_module_Browser_starts_all :
  constructed (trace (initServices (configWithModule "Browser")
                        (createContext (configWithModule "Browser"))
                        None releaseEntries))
  = ["Browser"; "Command"; "FileSystem"].
Proof. reflexivity. Qed.

(** A list of names selects the providers it names and no other. *)
Example initServices_module_list_selects :
  constructed (trace (initServices (configWithModule "Command,FileSystem")
                        (createContext (configWithModule "Command,FileSystem"))
                        None releaseEntries))
  = ["Command"; "FileSystem"].
Proof. reflexivity. Qed.

(** ** Start-up: fail-fast *)






(** ** Start-up: configuration sections and closers *)

Lemma configLoaded_app (t1 t2 : list Event) :
  configLoaded (t1 ++ t2) = configLoaded t1 ++ configLoaded t2.
Proof. apply omap_app. Qed.

Lemma configLoaded_startLog moduleList name :
  configLoaded (startLog moduleList name) = [].
Proof. unfold startLog. by case_bool_decide. Qed.

(** When no provider of the iteration has a section, start-up never
    calls [LoadConfig]. *)
Lemma initServices_loop_no_section ctx configJson moduleList entries :
  (∀ n, n ∈ entries.*1 → no_section configJson n) →
  ∀ svcs closers,
  configLoaded (trace (initServices_loop ctx configJson moduleList entries
                         svcs closers)) = [].
Proof.
  induction entries as [|[n f] rest IH]; intros Hno svcs closers; [done|].
  assert (Hrest : ∀ m, m ∈ rest.*1 → no_section configJson m)
    by (intros m Hm; apply Hno; by right).
  destruct (selected moduleList n) eqn:Hsel.
  - rewrite initServices_loop_start by done.
    pose proof (initSingleService_no_section ctx n f configJson
                  (Hno n ltac:(left))) as Hone.
    destruct (initSingleService ctx n f configJson) as [t [[s|err]|msg|]];
      unfold trace in *; simpl in *;
      rewrite !configLoaded_app, configLoaded_startLog, Hone; simpl;
      [by apply IH|done..].
  - rewrite initServices_loop_skip by done. unfold trace. simpl.
    by apply IH.
Qed.

(** Every closer that start-up registers belongs to a provider whose
    [Init] returned [nil]. *)
Lemma initServices_loop_closers ctx configJson moduleList entries :
  ∀ svcs closers t svcs1 closers1,
  (∀ name s, closers !! name = Some s → ∃ s0, svcInit s0 = Returns (s, None)) →
  initServices_loop ctx configJson moduleList entries svcs closers
    = (t, Returns (inl (svcs1, closers1))) →
  ∀ name s, closers1 !! name = Some s → ∃ s0, svcInit s0 = Returns (s, None).
Proof.
  induction entries as [|[n f] rest IH];
    intros svcs closers t svcs1 closers1 Hinv Hrun.
  - simpl in Hrun. unfold mret, M_ret in Hrun. by simplify_eq.
  - destruct (selected moduleList n) eqn:Hsel.
    + rewrite initServices_loop_start in Hrun by done.
      destruct (initSingleService ctx n f configJson)
        as [tS [[service|err]|msg|]] eqn:HS; simplify_eq.
      cbn zeta in Hrun.
      destruct (initServices_loop ctx configJson moduleList rest _ _)
        as [tn on] eqn:Hnext.
      unfold trace, outcome in Hrun. simpl in Hrun. simplify_eq.
      eapply IH; [|exact Hnext].
      intros name s. rewrite lookup_insert.
      case_decide; [|by apply Hinv].
      intros [= <-]. by eapply initSingleService_success.
    + rewrite initServices_loop_skip in Hrun by done.
      destruct (initServices_loop ctx configJson moduleList rest svcs closers)
        as [tn on] eqn:Hnext.
      unfold trace, outcome in Hrun. simpl in Hrun. simplify_eq.
      by eapply IH.
Qed.

(** C7. A provider whose name has no section in the configuration
    document is started without a call of [LoadConfig], alone and within
    the start-up loop; and the configuration [NewBrowserConfig] builds
    (time-outs 30, 10 and 20, no prompt file), as it is and with the two
    paths [NewBrowserServer] sets, passes [Check]. *)
Theorem no_section_skips_LoadConfig
    (host : Host) (mlConfig : MoLingConfig) (ctx : Context)
    (configJson : option (gmap string Json))
    (serviceType : MoLingServerType) (serviceFactory : ServiceFactory)
    (entries : list (MoLingServerType * ServiceFactory))
    (dataPath browserDataPath : string) :
  no_section configJson serviceType →
  (∀ n, n ∈ entries.*1 → no_section configJson n) →
  configLoaded (trace (initSingleService ctx serviceType serviceFactory configJson))
    = []
  ∧ configLoaded (trace (initServices mlConfig ctx configJson entries)) = []
  ∧ (BrowserConfig_Check host (NewBrowserConfig host)).2 = None
  ∧ (BrowserConfig_Check host
       (with_paths dataPath browserDataPath (NewBrowserConfig host))).2 = None.
Proof.
  intros Hone Hall. split_and!.
  - by apply initSingleService_no_section.
  - by apply initServices_loop_no_section.
  - reflexivity.
  - reflexivity.
Qed.

(** ** Shutdown *)

Lemma closerTask_cases (name : string) (closeFn : Service) :
  match svcClose closeFn with
  | Returns (Some e) =>
      closerTask name closeFn
      = ([EvClose name;
          EvLog ErrorLevel (Some e) ("failed to close service " +:+ name)],
         Returns tt)
  | Returns None =>
      closerTask name closeFn
      = ([EvClose name;
          EvLog InfoLevel None ("service " +:+ name +:+ " closed")],
         Returns tt)
  | Panics msg => closerTask name closeFn = ([EvClose name], Panics msg)
  | Blocks => closerTask name closeFn = ([EvClose name], Blocks)
  end.
Proof.
  unfold closerTask, call, log, mbind, M_bind.
  by destruct (svcClose closeFn) as [[e|]|msg|].
Qed.

Lemma closerTask_returned (name : string) (closeFn : Service) :
  returned (closerTask name closeFn) = true ↔ ∃ r, svcClose closeFn = Returns r.
Proof.
  pose proof (closerTask_cases name closeFn) as Hc.
  destruct (svcClose closeFn) as [[e|]|msg|]; rewrite Hc; unfold returned;
    simpl; (split; [intros ?|intros [? ?]]); by eauto.
Qed.

Lemma closerTask_panicked (name : string) (closeFn : Service) :
  panicked (closerTask name closeFn) = true ↔ ∃ msg, svcClose closeFn = Panics msg.
Proof.
  pose proof (closerTask_cases name closeFn) as Hc.
  destruct (svcClose closeFn) as [[e|]|msg|]; rewrite Hc; unfold panicked;
    simpl; (split; [intros ?|intros [? ?]]); by eauto.
Qed.

Lemma closerTasks_names (entries : list (string * Service)) :
  (closerTasks entries).*1 = entries.*1.
Proof.
  unfold closerTasks. induction entries as [|e l IH]; [done|].
  simpl. by f_equal.
Qed.

Lemma closerTasks_times (sch : Schedule) (entries : list (string * Service)) :
  map (λ t : string * M unit, closeTime sch t.1) (closerTasks entries)
  = closeTime sch <$> entries.*1.
Proof.
  unfold closerTasks. induction entries as [|e l IH]; [done|].
  simpl. by f_equal.
Qed.

(** No goroutine panics when no [Close] does. *)
Lemma panicAt_none (sch : Schedule) (entries : list (string * Service)) :
  (∀ e msg, e ∈ entries → svcClose e.2 ≠ Panics msg) →
  panicAt sch (closerTasks entries) = None.
Proof.
  intros Hno. unfold panicAt. rewrite filter_none; [done|].
  intros [n task] Hin Hp. unfold closerTasks in Hin.
  apply list_elem_of_fmap in Hin as ([n' s] & [= -> ->] & Hin). simpl in Hp.
  apply closerTask_panicked in Hp as [msg Hp]. by eapply (Hno (n', s)).
Qed.

Lemma doneAt_all_returned (sch : Schedule) (entries : list (string * Service)) :
  (∀ e, e ∈ entries → ∃ r, svcClose e.2 = Returns r) →
  doneAt sch (closerTasks entries) = Some (max_list (closeTime sch <$> entries.*1)).
Proof.
  intros Hall. unfold doneAt.
  rewrite closerTasks_times.
  assert (Hf : forallb (λ t : string * M unit, returned t.2)
                 (closerTasks entries) = true).
  { apply forallb_forall. intros [n task] Hin%list_elem_of_In.
    unfold closerTasks in Hin.
    apply list_elem_of_fmap in Hin as ([n' s] & [= -> ->] & Hin). simpl.
    apply closerTask_returned. by apply (Hall (n', s)). }
  by rewrite Hf.
Qed.

Lemma doneAt_some_blocked (sch : Schedule) (entries : list (string * Service)) e :
  e ∈ entries → svcClose e.2 = Blocks →
  doneAt sch (closerTasks entries) = None.
Proof.
  intros Hin Hb. unfold doneAt.
  destruct (forallb _ _) eqn:Hf; [|done].
  rewrite forallb_forall in Hf.
  specialize (Hf (e.1, closerTask e.1 e.2)).
  assert (Hr : returned (closerTask e.1 e.2) = true).
  { apply Hf, list_elem_of_In. unfold closerTasks.
    apply list_elem_of_fmap. by exists e. }
  apply closerTask_returned in Hr as [r Hr]. congruence.
Qed.

Lemma max_list_lt (n : nat) (l : list nat) :
  0 < n → (∀ x, x ∈ l → x < n) → max_list l < n.
Proof.
  intros Hn. induction l as [|x l IH]; intros Hl; simpl; [done|].
  apply Nat.max_lub_lt; [apply Hl; left|].
  apply IH. intros y Hy. apply Hl. by right.
Qed.

(** The calling goroutine never waits beyond the deadline. *)
Lemma selectCase_bounded (sch : Schedule) (done : option nat) :
  (selectCase sch done).2 ≤ shutdownTimeout.
Proof.
  unfold selectCase. destruct done as [t|]; [|done].
  repeat case_bool_decide; simpl; lia.
Qed.

Lemma selectBody_trace (c : SelectCase) :
  selectBody c = ([EvCancel; EvLog InfoLevel None (caseMessage c)], Returns tt).
Proof. by destruct c. Qed.

(** What the calling goroutine does when no [Close] panics. *)
Lemma waitForShutdownSignal_trace (sch : Schedule)
    (entries : list (string * Service)) (pidFilePath : string)
    (removed : option error) :
  (∀ e msg, e ∈ entries → svcClose e.2 ≠ Panics msg) →
  waitForShutdownSignal sch entries pidFilePath removed
  = ([EvLog InfoLevel None "Received signal, shutting down...";
      EvCancel;
      EvLog InfoLevel None (caseMessage (sd_case (shutdownServices sch entries)));
      EvRemovePIDFile pidFilePath] ++ pidFileLog pidFilePath removed,
     Returns removed).
Proof.
  intros Hno. unfold waitForShutdownSignal, shutdownServices.
  rewrite (panicAt_none _ _ Hno).
  destruct (selectCase sch _) as [c wake]. simpl.
  rewrite selectBody_trace.
  unfold call, log, mbind, M_bind, mret, M_ret.
  by destruct removed.
Qed.

(** C4. Shutdown is bounded and convergent, in logical time: every
    closer gets a goroutine of its own, whose first step is the [Close]
    call, and the calling goroutine waits in [select] only. If no [Close]
    panics, it goes on no later than 5000 ms after the start; when every
    [Close] returns before the deadline it goes on with the case [done]
    at the moment the last one returns, and when some [Close] never
    returns it goes on with the timeout case at the deadline. On both
    paths it then cancels the shared context and, after that, makes the
    call that removes the pid file, whose result is the result of
    [waitForShutdownSignal]. *)
Theorem shutdown_bounded (sch : Schedule) (entries : list (string * Service))
    (pidFilePath : string) (removed : option error) :
  (∀ e msg, e ∈ entries → svcClose e.2 ≠ Panics msg) →
  let sd := shutdownServices sch entries in
  sd_tasks sd = (λ e, (e.1, closerTask e.1 e.2)) <$> entries
  ∧ (∀ name task, (name, task) ∈ sd_tasks sd → trace task !! 0 = Some (EvClose name))
  ∧ sd_wake sd ≤ shutdownTimeout
  ∧ ((∀ e, e ∈ entries →
           (∃ r, svcClose e.2 = Returns r) ∧ closeTime sch e.1 < shutdownTimeout) →
     sd_case sd = CaseDone
     ∧ sd_wake sd = max_list (closeTime sch <$> entries.*1)
     ∧ sd_wake sd < shutdownTimeout)
  ∧ ((∃ e, e ∈ entries ∧ svcClose e.2 = Blocks) →
     sd_case sd = CaseTimeout ∧ sd_wake sd = shutdownTimeout)
  ∧ waitForShutdownSignal sch entries pidFilePath removed
    = ([EvLog InfoLevel None "Received signal, shutting down...";
        EvCancel;
        EvLog InfoLevel None (caseMessage (sd_case sd));
        EvRemovePIDFile pidFilePath] ++ pidFileLog pidFilePath removed,
       Returns removed).
Proof.
  intros Hno. cbn zeta.
  assert (Hsd : ∀ d, doneAt sch (closerTasks entries) = d →
            sd_case (shutdownServices sch entries) = (selectCase sch d).1
            ∧ sd_wake (shutdownServices sch entries) = (selectCase sch d).2).
  { intros d <-. unfold shutdownServices.
    by destruct (selectCase sch _). }
  split_and!.
  - unfold shutdownServices. by destruct (selectCase sch _).
  - intros name task Hin.
    assert (Hin' : (name, task) ∈ closerTasks entries).
    { unfold shutdownServices in Hin. by destruct (selectCase sch _). }
    unfold closerTasks in Hin'.
    apply list_elem_of_fmap in Hin' as ([n s] & [= -> ->] & _). simpl.
    pose proof (closerTask_cases n s) as Hc.
    destruct (svcClose s) as [[e|]|msg|]; by rewrite Hc.
  - destruct (Hsd _ eq_refl) as [_ ->]. apply selectCase_bounded.
  - intros Hall.
    assert (Hdone : doneAt sch (closerTasks entries)
                    = Some (max_list (closeTime sch <$> entries.*1))).
    { apply doneAt_all_returned. intros e He. by apply Hall. }
    assert (Hlt : max_list (closeTime sch <$> entries.*1) < shutdownTimeout).
    { apply max_list_lt; [unfold shutdownTimeout; lia|].
      intros x (n & -> & (e & -> & He)%list_elem_of_fmap)%list_elem_of_fmap.
      by apply Hall. }
    destruct (Hsd _ Hdone) as [-> ->]. unfold selectCase.
    by rewrite bool_decide_true.
  - intros (e & He & Hb).
    destruct (Hsd _ (doneAt_some_blocked sch entries e He Hb)) as [-> ->].
    done.
  - by apply waitForShutdownSignal_trace.
Qed.

(** C5. Shutdown is isolating. Let [Close] of A return an error and
    [Close] of B return [nil]. Every closer has a goroutine of its own,
    and what a goroutine does depends on its own closer only: B's
    goroutine calls [Close] and logs that B is closed, A's goroutine logs
    A's error under A's name. A's error appears nowhere else: when no
    [Close] panics, the calling goroutine does the same as if A had
    succeeded, and the result of [waitForShutdownSignal] is the result of
    the pid file removal. *)
Theorem shutdown_isolating (sch : Schedule) (entries : list (string * Service))
    (pidFilePath : string) (removed : option error)
    (nameA nameB : string) (svcA svcB : Service) (errA : error) :
  (nameA, svcA) ∈ entries →
  (nameB, svcB) ∈ entries →
  svcClose svcA = Returns (Some errA) →
  svcClose svcB = Returns None →
  (∀ e msg, e ∈ entries → svcClose e.2 ≠ Panics msg) →
  let sd := shutdownServices sch entries in
  (sd_tasks sd).*1 = entries.*1
  ∧ (nameB, ([EvClose nameB;
              EvLog InfoLevel None ("service " +:+ nameB +:+ " closed")],
             Returns tt)) ∈ sd_tasks sd
  ∧ (nameA, ([EvClose nameA;
              EvLog ErrorLevel (Some errA)
                ("failed to close service " +:+ nameA)],
             Returns tt)) ∈ sd_tasks sd
  ∧ sd_main sd
    = ([EvCancel; EvLog InfoLevel None (caseMessage (sd_case sd))], Returns tt)
  ∧ outcome (waitForShutdownSignal sch entries pidFilePath removed)
    = Returns removed.
Proof.
  intros HA HB HcA HcB Hno. cbn zeta.
  assert (Htasks : sd_tasks (shutdownServices sch entries) = closerTasks entries).
  { unfold shutdownServices. by destruct (selectCase sch _). }
  split_and!.
  - rewrite Htasks. apply closerTasks_names.
  - rewrite Htasks. unfold closerTasks. apply list_elem_of_fmap.
    exists (nameB, svcB). split; [|done]. simpl.
    pose proof (closerTask_cases nameB svcB) as Hc. rewrite HcB in Hc.
    by rewrite Hc.
  - rewrite Htasks. unfold closerTasks. apply list_elem_of_fmap.
    exists (nameA, svcA). split; [|done]. simpl.
    pose proof (closerTask_cases nameA svcA) as Hc. rewrite HcA in Hc.
    by rewrite Hc.
  - unfold shutdownServices. rewrite (panicAt_none _ _ Hno).
    destruct (selectCase sch _) as [c wake]. simpl. apply selectBody_trace.
  - by rewrite waitForShutdownSignal_trace.
Qed.

(** ** Providers *)

Section ProviderProperties.
Context {Resource ResourceTemplate : Type}.
Context `{Countable Resource, Countable ResourceTemplate}.
Context {Prompt Tool : Type}.
Context {ResourceHandlerFunc ResourceTemplateHandlerFunc PromptHandlerFunc
         ToolHandlerFunc NotificationHandlerFunc : Type}.
Context (host : Host).
Context (browser_prompt : @PromptEntry Prompt PromptHandlerFunc).
Context (browser_tools : list (Tool * ToolHandlerFunc)).

Local Abbreviation BrowserServerT :=
  (@BrowserServer Resource ResourceTemplate _ _ _ _ Prompt Tool
     ResourceHandlerFunc ResourceTemplateHandlerFunc PromptHandlerFunc
     ToolHandlerFunc NotificationHandlerFunc).
Local Abbreviation MLServiceT :=
  (@MLService Resource ResourceTemplate _ _ _ _ Prompt Tool
     ResourceHandlerFunc ResourceTemplateHandlerFunc PromptHandlerFunc
     ToolHandlerFunc NotificationHandlerFunc).
Local Abbreviation browserInit := (BrowserServer_Init host browser_prompt browser_tools).
Local Abbreviation browserOpsT := (BrowserServer_ops host browser_prompt browser_tools).

(** *** The browser provider: [Init] and [Close] *)

(** [Init] either fails and leaves the provider as it was, or succeeds
    and assigns both cancel functions. *)
Lemma BrowserServer_Init_cases (bs bs' : BrowserServerT) (e : option error) :
  browserInit bs = Returns (bs', e) →
  (is_Some e ∧ bs' = bs)
  ∨ (e = None ∧ is_Some (cancelAlloc bs') ∧ is_Some (cancelChrome bs')).
Proof.
  unfold BrowserServer_Init. intros Hinit.
  destruct (initBrowser host _); [simplify_eq; eauto|].
  destruct (utils_CreateDirectory host _); simplify_eq; simpl; eauto.
Qed.

Lemma BrowserServer_Init_returns (bs : BrowserServerT) :
  ∃ bs' e, browserInit bs = Returns (bs', e).
Proof.
  unfold BrowserServer_Init.
  destruct (initBrowser host _); [eauto|].
  destruct (utils_CreateDirectory host _); eauto.
Qed.

(** [Close] on a provider whose cancel functions were never assigned
    calls a [nil] function. *)
Lemma BrowserServer_Close_unassigned (bs : BrowserServerT) :
  cancelAlloc bs = None ∨ cancelChrome bs = None →
  BrowserServer_Close host bs = Panics nilCall.
Proof.
  unfold BrowserServer_Close. intros [->| ->]; [done|].
  by destruct (cancelAlloc bs).
Qed.

(** A browser provider fresh from its constructor, whose [Init] then
    fails, panics in [Close]. *)
Lemma BrowserServer_Close_after_failed_Init ctx (bs bs' : BrowserServerT) e :
  NewBrowserServer host ctx = Returns (inl bs) →
  browserInit bs = Returns (bs', Some e) →
  BrowserServer_Close host bs' = Panics nilCall.
Proof.
  intros Hnew Hinit.
  destruct (BrowserServer_Init_cases _ _ _ Hinit) as [[_ ->]|[? _]]; [|done].
  apply BrowserServer_Close_unassigned. left.
  unfold NewBrowserServer in Hnew.
  destruct (ctx_logger ctx); by simplify_eq.
Qed.

(** C3 (amended). [BrowserServer.Close] is safe once [Init] has
    returned [nil]: both cancel functions are assigned, and [Close]
    returns the result of [chromedp.Cancel], an error value or [nil],
    without a panic. Start-up puts [Close] into the closers map only
    for providers whose [Init] returned [nil], so shutdown calls [Close]
    on such providers only. *)
Theorem Close_safe_after_Init
    (bs : BrowserServerT) (s' : Service)
    (mlConfig : MoLingConfig) (ctx : Context)
    (configJson : option (gmap string Json))
    (entries : list (MoLingServerType * ServiceFactory))
    (t : list Event) (svcs : list Service) (closers : gmap string Service) :
  svcInit (MkService BrowserServerT browserOpsT bs) = Returns (s', None) →
  initServices mlConfig ctx configJson entries
    = (t, Returns (inl (svcs, closers))) →
  svcClose s' = Returns (chromedp_Cancel host)
  ∧ (∀ name s, closers !! name = Some s →
               ∃ s0, svcInit s0 = Returns (s, None)).
Proof.
  intros Hinit Hrun. split.
  - unfold svcInit in Hinit. simpl in Hinit.
    destruct (BrowserServer_Init_returns bs) as (bs' & e & Hbs).
    rewrite Hbs in Hinit. simplify_eq.
    destruct (BrowserServer_Init_cases _ _ _ Hbs) as [[[] _]|(_ & [a Ha] & [c Hc])];
      [done|].
    unfold svcClose, svcWith. simpl. unfold BrowserServer_Close.
    by rewrite Ha, Hc.
  - unfold initServices in Hrun.
    eapply initServices_loop_closers; [|exact Hrun].
    intros name s. by rewrite lookup_empty.
Qed.

(** *** The base [LoadConfig] *)

(** C10. The base [MLService.LoadConfig] never returns [nil]: when the
    merge reports an error it returns that error, and when the merge
    succeeds it calls [MoLingConfig.Check], which panics. *)
Theorem MLService_LoadConfig_never_nil (mls : MLServiceT)
    (jsonData : gmap string Json) :
  (∀ mls', MLService_LoadConfig host mls jsonData ≠ Returns (mls', None))
  ∧ ((utils_MergeJSONToStruct host _ (MlConfig mls) jsonData).2 = None →
     MLService_LoadConfig host mls jsonData = Panics "not implemented yet")
  ∧ (∀ e, (utils_MergeJSONToStruct host _ (MlConfig mls) jsonData).2 = Some e →
          ∃ mls', MLService_LoadConfig host mls jsonData = Returns (mls', Some e)).
Proof.
  unfold MLService_LoadConfig.
  destruct (utils_MergeJSONToStruct host _ (MlConfig mls) jsonData) as [cfg [e|]];
    simpl; split_and!; try done.
  - intros e' [= ->]. eauto.
Qed.

(** *** The adapter *)

Local Abbreviation AddOpT :=
  (@AddOp Resource ResourceTemplate Prompt Tool ResourceHandlerFunc
     ResourceTemplateHandlerFunc PromptHandlerFunc ToolHandlerFunc
     NotificationHandlerFunc).
Local Abbreviation EndpointCallT :=
  (@EndpointCall Resource ResourceTemplate Prompt Tool ResourceHandlerFunc
     ResourceTemplateHandlerFunc PromptHandlerFunc ToolHandlerFunc
     NotificationHandlerFunc).

(** The prompts of a provider are the ones it had, followed by the ones
    it added, in the order of the additions. *)
Lemma Prompts_applyOps (ops : list AddOpT) (mls : MLServiceT) :
  Prompts (applyOps ops mls) = Prompts mls ++ promptOps ops.
Proof.
  revert mls. induction ops as [|op ops IH]; intros mls.
  - simpl. by rewrite app_nil_r.
  - unfold applyOps in *. cbn [foldl]. rewrite IH.
    destruct op; unfold Prompts; simpl; [done|done| |done|done].
    by rewrite <- app_assoc.
Qed.

Lemma staged_block (k : nat) (l : list EndpointCallT) :
  (∀ c, c ∈ l → stage c = k) → StronglySorted staged l.
Proof.
  induction l as [|c l IH]; intros Hk; constructor.
  - apply IH. intros c' Hc'. apply Hk. by right.
  - apply Forall_forall. intros c' Hc'. unfold staged.
    rewrite (Hk c) by left. rewrite (Hk c') by (by right). done.
Qed.

Lemma staged_app_block (k : nat) (l1 l2 : list EndpointCallT) :
  (∀ c, c ∈ l1 → stage c = k) →
  (∀ c, c ∈ l2 → k ≤ stage c) →
  StronglySorted staged l2 →
  StronglySorted staged (l1 ++ l2).
Proof.
  intros H1 H2 Hs. apply StronglySorted_app_2; [|by apply (staged_block k)|done].
  intros c1 c2 Hc1 Hc2. unfold staged. rewrite (H1 c1 Hc1). by apply H2.
Qed.

Lemma promptCalls_app (l1 l2 : list EndpointCallT) :
  promptCalls (l1 ++ l2) = promptCalls l1 ++ promptCalls l2.
Proof. apply omap_app. Qed.

Lemma promptCalls_other {A : Type} (f : A → EndpointCallT) (l : list A) :
  (∀ a, stage (f a) ≠ 4) → promptCalls (f <$> l) = [].
Proof.
  intros Hf. induction l as [|a l IH]; [done|].
  simpl. specialize (Hf a). by destruct (f a).
Qed.

Lemma promptCalls_prompts (l : list (@PromptEntry Prompt PromptHandlerFunc)) :
  promptCalls ((λ pe, CallAddPrompt (PromptEntry_Prompt pe) (PromptEntry_Handler pe)
                      : EndpointCallT) <$> l)
  = (λ pe, (PromptEntry_Prompt pe, PromptEntry_Handler pe)) <$> l.
Proof. induction l as [|pe l IH]; [done|]. simpl. by f_equal. Qed.

(** C8. The load step appends to the endpoint, in this order, one
    [AddResource] call for each resource of the provider, one
    [AddResourceTemplate] call for each resource template, one
    [AddTools] call with the tools, one [AddNotificationHandler] call
    for each notification handler, and one [AddPrompt] call for each
    prompt; the calls are ordered by stage, and the prompts reach the
    endpoint in exactly the order in which the provider added them to
    itself. The load step reports no error. *)
Theorem loadService_fixed_order (o : RangeOrders) (cfg : MoLingConfig)
    (ops : list AddOpT) (server : list EndpointCallT) :
  let srv : MLServiceT := applyOps ops (NewMLService cfg) in
  orders_of srv o →
  ∃ rs rts nhs ps,
    loadService o srv server
      = (server ++ rs ++ rts ++ [CallAddTools (Tools srv)] ++ nhs ++ ps, None)
    ∧ rs ≡ₚ (λ e, CallAddResource e.1 e.2) <$> map_to_list (Resources srv)
    ∧ rts ≡ₚ (λ e, CallAddResourceTemplate e.1 e.2)
               <$> map_to_list (ResourceTemplates srv)
    ∧ nhs ≡ₚ (λ e, CallAddNotificationHandler e.1 e.2)
               <$> map_to_list (NotificationHandlers srv)
    ∧ ps = (λ pe, CallAddPrompt (PromptEntry_Prompt pe) (PromptEntry_Handler pe))
             <$> promptOps ops
    ∧ StronglySorted staged
        (rs ++ rts ++ [CallAddTools (Tools srv)] ++ nhs ++ ps)
    ∧ promptCalls (rs ++ rts ++ [CallAddTools (Tools srv)] ++ nhs ++ ps)
      = (λ pe, (PromptEntry_Prompt pe, PromptEntry_Handler pe)) <$> promptOps ops.
Proof.
  cbn zeta. intros (Hrs & Hrts & Hnhs).
  exists ((λ e, CallAddResource e.1 e.2) <$> resourcesOrder o),
         ((λ e, CallAddResourceTemplate e.1 e.2) <$> resourceTemplatesOrder o),
         ((λ e, CallAddNotificationHandler e.1 e.2) <$> notificationHandlersOrder o),
         ((λ pe, CallAddPrompt (PromptEntry_Prompt pe) (PromptEntry_Handler pe))
            <$> Prompts (applyOps ops (NewMLService cfg))).
  split_and!.
  - unfold loadService. by rewrite <- !app_assoc.
  - by rewrite Hrs.
  - by rewrite Hrts.
  - by rewrite Hnhs.
  - rewrite Prompts_applyOps. done.
  - apply (staged_app_block 0); [stage_of|stage_of|].
    apply (staged_app_block 1); [stage_of|stage_of|].
    apply (staged_app_block 2); [stage_of|stage_of|].
    apply (staged_app_block 3); [stage_of|stage_of|].
    apply (staged_block 4). stage_of.
  - rewrite !promptCalls_app.
    rewrite !promptCalls_other by done. simpl.
    by rewrite promptCalls_prompts, Prompts_applyOps.
Qed.

End ProviderProperties.

(** ** Concrete runs *)

Lemma no_section_skips_LoadConfig_witness :
  configLoaded (trace (initSingleService (createContext (configWithModule "Browser"))
                         "Browser" (factoryOf (healthy "Browser")) otherSectionOnly))
    = []
  ∧ configLoaded (trace (initServices (configWithModule "Browser")
                           (createContext (configWithModule "Browser"))
                           otherSectionOnly releaseEntries)) = []
  ∧ (BrowserConfig_Check quietHost (NewBrowserConfig quietHost)).2 = None
  ∧ (BrowserConfig_Check quietHost
       (with_paths "/home/user/.moling/data" "/home/user/.moling/browser"
          (NewBrowserConfig quietHost))).2 = None.
Proof.
  apply (no_section_skips_LoadConfig quietHost (configWithModule "Browser")
           (createContext (configWithModule "Browser")) otherSectionOnly
           "Browser" (factoryOf (healthy "Browser")) releaseEntries).
  - reflexivity.
  - unfold releaseEntries. simpl. intros n.
    rewrite !elem_of_cons, elem_of_nil.
    intros [->|[->|[->|[]]]]; reflexivity.
Defined.

Lemma Close_safe_after_Init_witness :
  ∃ s' : Service,
    svcInit (MkService DemoBrowserServer
               (BrowserServer_ops quietHost demoPrompt demoTools)
               (demoBrowser quietHost)) = Returns (s', None)
    ∧ svcClose s' = Returns (Some "invalid context").
Proof.
  eexists. split; [reflexivity|].
  eapply (Close_safe_after_Init quietHost demoPrompt demoTools
            (demoBrowser quietHost) _ (configWithModule "Browser")
            (createContext (configWithModule "Browser")) None browserEntries).
  - reflexivity.
  - reflexivity.
Defined.

(** C3 (counterexample). On a host where the browser data directory
    cannot be inspected, [Init] of the browser provider returns an error
    before it assigns the cancel functions, and [Close] on that provider
    panics. *)
Lemma BrowserServer_Close_panics_after_failed_Init :
  NewBrowserServer deniedHost (createContext (configWithModule "all"))
    = Returns (inl (demoBrowser deniedHost))
  ∧ BrowserServer_Init deniedHost demoPrompt demoTools (demoBrowser deniedHost)
    = Returns (demoBrowser deniedHost,
               Some "failed to initialize browser: failed to stat user data directory: permission denied")
  ∧ BrowserServer_Close deniedHost (demoBrowser deniedHost) = Panics nilCall.
Proof. split_and!; reflexivity. Qed.

Lemma MLService_LoadConfig_never_nil_witness :
  MLService_LoadConfig quietHost demoProvider ∅ = Panics "not implemented yet".
Proof.
  destruct (MLService_LoadConfig_never_nil quietHost demoProvider ∅)
    as (_ & Hpanic & _).
  apply Hpanic. reflexivity.
Defined.

Lemma loadService_fixed_order_witness :
  promptCalls (loadService demoOrders demoProvider []).1
  = [("first", "handleFirst"); ("second", "handleSecond")].
Proof.
  destruct (loadService_fixed_order demoOrders (configWithModule "all") demoOps [])
    as (rs & rts & nhs & ps & Hload & _ & _ & _ & _ & _ & Hprompts).
  - split_and!; reflexivity.
  - unfold demoProvider. rewrite Hload. exact Hprompts.
Defined.

Lemma shutdown_bounded_witness :
  sd_wake (shutdownServices (schedule quietWorld) demoClosers) = 5000
  ∧ sd_case (shutdownServices (schedule quietWorld) demoClosers) = CaseTimeout
  ∧ trace (waitForShutdownSignal (schedule quietWorld) demoClosers
             "/home/user/.moling/moling.pid" None)
    = [EvLog InfoLevel None "Received signal, shutting down...";
       EvCancel;
       EvLog InfoLevel None "timeout, all services closed forcefully";
       EvRemovePIDFile "/home/user/.moling/moling.pid";
       EvLog InfoLevel None "removed pid file /home/user/.moling/moling.pid";
       EvLog InfoLevel None " Bye!"].
Proof.
  destruct (shutdown_bounded (schedule quietWorld) demoClosers
              "/home/user/.moling/moling.pid" None)
    as (_ & _ & _ & _ & Hblocked & Hwait).
  - unfold demoClosers. intros e msg.
    rewrite !elem_of_cons, elem_of_nil.
    intros [->|[->|[->|[]]]]; discriminate.
  - destruct Hblocked as [Hcase Hwake].
    + exists ("Gamma", scripted (closingWith "Gamma" Blocks)).
      split; [|reflexivity]. unfold demoClosers.
      rewrite !elem_of_cons. auto.
    + split_and!; [exact Hwake|exact Hcase|].
      rewrite Hwait, Hcase. reflexivity.
Defined.

Lemma shutdown_isolating_witness :
  ("Beta", ([EvClose "Beta"; EvLog InfoLevel None "service Beta closed"],
            Returns tt))
    ∈ sd_tasks (shutdownServices (schedule quietWorld) demoClosers)
  ∧ outcome (waitForShutdownSignal (schedule quietWorld) demoClosers
               "/home/user/.moling/moling.pid" None) = Returns None.
Proof.
  destruct (shutdown_isolating (schedule quietWorld) demoClosers
              "/home/user/.moling/moling.pid" None
              "Alpha" "Beta"
              (scripted (closingWith "Alpha" (Returns (Some "device busy"))))
              (scripted (closingWith "Beta" (Returns None)))
              "device busy")
    as (_ & HB & _ & _ & Hres).
  - unfold demoClosers. rewrite !elem_of_cons. auto.
  - unfold demoClosers. rewrite !elem_of_cons. auto.
  - reflexivity.
  - reflexivity.
  - unfold demoClosers. intros e msg.
    rewrite !elem_of_cons, elem_of_nil.
    intros [->|[->|[->|[]]]]; discriminate.
  - split; [exact HB|exact Hres].
Defined.

(** * Further properties of the code *)

(** ** The registry *)

Lemma registerAll_snoc regs r serviceLists :
  registerAll (regs ++ [r]) serviceLists
  = RegisterServ r.1 r.2 (registerAll regs serviceLists).
Proof. unfold registerAll. by rewrite foldl_app. Qed.

Lemma lastRegistered_snoc n regs r :
  lastRegistered n (regs ++ [r])
  = if decide (r.1 = n) then Some r.2 else lastRegistered n regs.
Proof.
  unfold lastRegistered. rewrite filter_app, filter_cons, filter_nil.
  case_decide; [by rewrite last_snoc|by rewrite app_nil_r].
Qed.

Lemma registerAll_lookup regs serviceLists n :
  registerAll regs serviceLists !! n
  = match lastRegistered n regs with
    | Some f => Some f
    | None => serviceLists !! n
    end.
Proof.
  induction regs as [|r regs IH] using rev_ind; [done|].
  rewrite registerAll_snoc, lastRegistered_snoc. unfold RegisterServ.
  rewrite lookup_insert. by case_decide.
Qed.

Lemma registerAll_dom regs serviceLists :
  dom (registerAll regs serviceLists) = dom serviceLists ∪ list_to_set regs.*1.
Proof.
  induction regs as [|r regs IH] using rev_ind.
  - simpl. set_solver.
  - rewrite registerAll_snoc. unfold RegisterServ.
    rewrite dom_insert_L, IH, fmap_app, list_to_set_app_L. simpl. set_solver.
Qed.

(** X1. After any sequence of registrations, the registry binds a name to
    the factory registered last under it and leaves the names that were
    not registered as they were; its names are the old ones and the
    registered ones. *)
Theorem registerAll_last_registration_wins
    (regs : list (MoLingServerType * ServiceFactory))
    (serviceLists : gmap MoLingServerType ServiceFactory)
    (n : MoLingServerType) :
  ServiceList (registerAll regs serviceLists) !! n
  = match lastRegistered n regs with
    | Some f => Some f
    | None => serviceLists !! n
    end
  ∧ dom (ServiceList (registerAll regs serviceLists))
    = dom serviceLists ∪ list_to_set regs.*1.
Proof. split; [apply registerAll_lookup|apply registerAll_dom]. Qed.

Lemma filter_name_short (n : MoLingServerType)
    (regs : list (MoLingServerType * ServiceFactory)) :
  NoDup regs.*1 → length (filter (λ r, r.1 = n) regs) ≤ 1.
Proof.
  induction regs as [|r regs IH]; intros Hnd; [simpl; lia|].
  apply NoDup_cons in Hnd as [Hr Hnd]. rewrite filter_cons.
  case_decide as Hn; [|by apply IH].
  rewrite filter_none; [simpl; lia|].
  intros r' Hin Hr'. apply Hr. rewrite Hn, <- Hr'.
  apply list_elem_of_fmap. by exists r'.
Qed.

(** X2. When the registered names are pairwise distinct, the registry
    does not depend on the order in which the registrations happen. *)
Theorem registerAll_order_independent
    (regs regs' : list (MoLingServerType * ServiceFactory))
    (serviceLists : gmap MoLingServerType ServiceFactory) :
  NoDup regs.*1 →
  regs ≡ₚ regs' →
  registerAll regs serviceLists = registerAll regs' serviceLists.
Proof.
  intros Hnd Hperm. apply map_eq. intros n.
  rewrite !registerAll_lookup.
  assert (Hnd' : NoDup regs'.*1) by (by rewrite <- Hperm).
  pose proof (filter_name_short n regs Hnd) as Hl.
  pose proof (filter_name_short n regs' Hnd') as Hl'.
  assert (Hf : filter (λ r, r.1 = n) regs ≡ₚ filter (λ r, r.1 = n) regs')
    by (by rewrite Hperm).
  unfold lastRegistered.
  destruct (filter (λ r, r.1 = n) regs) as [|r [|r2 l]] eqn:E;
    destruct (filter (λ r, r.1 = n) regs') as [|r' [|r2' l']] eqn:E';
    simpl in *; try lia.
  - done.
  - by apply Permutation_nil_cons in Hf.
  - symmetry in Hf. by apply Permutation_nil_cons in Hf.
  - by apply Permutation_singleton_inj in Hf as ->.
Qed.

(** ** The transport *)

Lemma strip_prefix_app (p s : string) : strip_prefix p (p +:+ s) = Some s.
Proof.
  induction p as [|a p IH]; [by destruct s|].
  simpl. by rewrite Ascii.eqb_refl.
Qed.

Lemma strip_prefix_Some (p s r : string) :
  strip_prefix p s = Some r → s = p +:+ r.
Proof.
  revert s. induction p as [|a p IH]; intros s; simpl.
  - by intros [= ->].
  - destruct s as [|b s]; [done|].
    destruct (Ascii.eqb a b) eqn:Hab; [|done].
    apply Ascii.eqb_eq in Hab as ->. intros ->%IH. done.
Qed.

(** X3. [Serve] chooses the stdio transport exactly for the empty listen
    address. For any other address the base URL of the SSE server is
    [http://] followed by the address without one leading [http://]: an
    address that starts with the scheme is its own base URL, an address
    that does not start with it gets the scheme in front, and in both
    cases the base URL starts with the scheme. One leading scheme only is
    looked at, so an address with the scheme written twice keeps both.
    The address the server listens on is handed on as it was written. *)
Theorem Serve_base_URL (addr : string) :
  (Serve_transport addr = ServeStdio ↔ addr = "")
  ∧ Serve_transport ("http://" +:+ addr)
    = ServeSSE ("http://" +:+ addr) ("http://" +:+ addr)
  ∧ (addr ≠ "" → strip_prefix "http://" addr = None →
     Serve_transport addr = ServeSSE ("http://" +:+ addr) addr)
  ∧ (addr ≠ "" →
     ∃ rest, Serve_transport addr = ServeSSE ("http://" +:+ rest) addr
             ∧ (addr = "http://" +:+ rest
                ∨ addr = rest ∧ strip_prefix "http://" addr = None))
  ∧ Serve_transport ("http://http://" +:+ addr)
    = ServeSSE ("http://http://" +:+ addr) ("http://http://" +:+ addr).
Proof.
  assert (Hscheme : ∀ a, Serve_transport ("http://" +:+ a)
                         = ServeSSE ("http://" +:+ a) ("http://" +:+ a)).
  { intros a. unfold Serve_transport, strings_TrimPrefix.
    rewrite decide_True by done. by rewrite strip_prefix_app. }
  split_and!.
  - unfold Serve_transport. split.
    + by destruct (decide (addr ≠ "")) as [Hne|Heq%dec_stable].
    + by intros ->.
  - apply Hscheme.
  - intros Hne Hnone. unfold Serve_transport, strings_TrimPrefix.
    rewrite decide_True by done. by rewrite Hnone.
  - intros Hne. unfold Serve_transport, strings_TrimPrefix.
    rewrite decide_True by done.
    destruct (strip_prefix "http://" addr) as [rest|] eqn:Hstrip.
    + exists rest. split; [done|]. left. by apply strip_prefix_Some.
    + exists addr. split; [done|]. by right.
  - apply (Hscheme ("http://" +:+ addr)).
Qed.

Lemma Serve_base_URL_witness :
  Serve_transport "127.0.0.1:6789"
    = ServeSSE "http://127.0.0.1:6789" "127.0.0.1:6789"
  ∧ Serve_transport "http://127.0.0.1:6789"
    = ServeSSE "http://127.0.0.1:6789" "http://127.0.0.1:6789".
Proof.
  destruct (Serve_base_URL "127.0.0.1:6789") as (_ & H2 & H1 & _).
  split; [apply H1; [done|reflexivity]|exact H2].
Defined.

Lemma registerAll_order_independent_witness :
  registerAll [("Browser", factoryOf (healthy "Browser"));
               ("Command", factoryOf (healthy "Command"))] ∅
  = registerAll [("Command", factoryOf (healthy "Command"));
                 ("Browser", factoryOf (healthy "Browser"))] ∅.
Proof.
  apply registerAll_order_independent.
  - simpl. apply NoDup_cons. split.
    + rewrite list_elem_of_singleton. discriminate.
    + apply NoDup_singleton.
  - apply perm_swap.
Defined.

(** ** The directories of a run *)

Lemma createDirectories_spec (createDirectory : string → option error)
    (basePath : string) (dirNames : list string) :
  let paths := filepath_Join basePath <$> dirNames in
  let '(asked, err) := createDirectories createDirectory basePath dirNames in
  asked `prefix_of` paths
  ∧ match err with
    | None => asked = paths ∧ ∀ p, p ∈ paths → createDirectory p = None
    | Some e =>
        ∃ done p, asked = done ++ [p]
                  ∧ createDirectory p = Some e
                  ∧ ∀ q, q ∈ done → createDirectory q = None
    end.
Proof.
  cbn zeta. induction dirNames as [|d rest IH]; simpl.
  - split; [done|]. split; [done|]. by intros p ?%elem_of_nil.
  - destruct (createDirectory (filepath_Join basePath d)) as [e|] eqn:Hd.
    + split; [apply prefix_cons, prefix_nil|].
      exists [], (filepath_Join basePath d). split_and!; [done|done|].
      by intros q ?%elem_of_nil.
    + destruct (createDirectories createDirectory basePath rest) as [asked err].
      destruct IH as [Hpre Herr]. split; [by apply prefix_cons|].
      destruct err as [e|].
      * destruct Herr as (done & p & -> & Hp & Hdone).
        exists (filepath_Join basePath d :: done), p. split_and!; [done|done|].
        intros q [->|Hq]%elem_of_cons; [done|by apply Hdone].
      * destruct Herr as [-> Hall]. split; [done|].
        intros p [->|Hp]%elem_of_cons; [done|by apply Hall].
Qed.

(** X4. [mlsCommandPreFunc] asks for the base directory first and then for
    its five sub-directories in their fixed order, and stops at the first
    directory that cannot be created: it returns [nil] exactly when every
    one of the six was created, and otherwise the error of the failed
    creation, unchanged, without asking for any later directory. *)
Theorem mlsCommandPreFunc_fail_fast
    (createDirectory : string → option error) (basePath : string) :
  let all := basePath :: (filepath_Join basePath <$> mlDirectories) in
  let run := mlsCommandPreFunc createDirectory basePath in
  run.1 `prefix_of` all
  ∧ (run.2 = None ↔ ∀ p, p ∈ all → createDirectory p = None)
  ∧ (run.2 = None → run.1 = all)
  ∧ (∀ e, run.2 = Some e →
          ∃ done p, run.1 = done ++ [p]
                    ∧ createDirectory p = Some e
                    ∧ ∀ q, q ∈ done → createDirectory q = None).
Proof.
  cbn zeta. unfold mlsCommandPreFunc.
  destruct (createDirectory basePath) as [e|] eqn:Hbase; cbn [fst snd].
  - split_and!.
    + apply prefix_cons, prefix_nil.
    + split; [done|]. intros Hall.
      specialize (Hall basePath ltac:(left)). congruence.
    + done.
    + intros e' [= <-]. exists [], basePath. split_and!; [done|done|].
      by intros q ?%elem_of_nil.
  - pose proof (createDirectories_spec createDirectory basePath mlDirectories)
      as Hspec. cbn zeta in Hspec.
    destruct (createDirectories createDirectory basePath mlDirectories)
      as [asked err]. destruct Hspec as [Hpre Herr]. cbn [fst snd].
    split_and!.
    + by apply prefix_cons.
    + destruct err as [e|].
      * split; [done|]. intros Hall.
        destruct Herr as (done & p & -> & Hp & _).
        assert (Hin : p ∈ filepath_Join basePath <$> mlDirectories).
        { eapply elem_of_prefix; [|exact Hpre].
          apply elem_of_app. right. by left. }
        specialize (Hall p ltac:(by right)). congruence.
      * destruct Herr as [-> Hall]. split; [|done]. intros _ p.
        intros [->|Hp]%elem_of_cons; [done|by apply Hall].
    + intros ->. by destruct Herr as [-> _].
    + intros e ->. destruct Herr as (done & p & -> & Hp & Hdone).
      exists (basePath :: done), p. split_and!; [done|done|].
      intros q [->|Hq]%elem_of_cons; [done|by apply Hdone].
Qed.

(** ** The watch on the parent process *)

Lemma monitorParentProcess_from (ppidAt : nat → nat) (fuel start n : nat) :
  monitorParentProcess ppidAt fuel start = Some n ↔
  ∃ k, n = S k ∧ start ≤ k < start + fuel ∧ ppidAt k = 1
       ∧ ∀ j, start ≤ j < k → ppidAt j ≠ 1.
Proof.
  revert start. induction fuel as [|fuel IH]; intros start; simpl.
  - split; [done|]. intros (k & _ & ? & _). lia.
  - case_decide as Hp.
    + split.
      * intros [= <-]. exists start.
        split_and!; try done; try lia. all: intros j ?; lia.
      * intros (k & -> & Hk & Hone & Hbefore).
        destruct (decide (k = start)) as [->|Hne]; [done|].
        exfalso. apply (Hbefore start); [lia|done].
    + rewrite IH. split.
      * intros (k & -> & Hk & Hone & Hbefore). exists k.
        split_and!; try done; try lia.
        all: intros j Hj; destruct (decide (j = start)) as [->|]; [done|].
        all: apply Hbefore; lia.
      * intros (k & -> & Hk & Hone & Hbefore). exists k.
        assert (k ≠ start) by (intros ->; done).
        split_and!; try done; try lia. all: intros j Hj; apply Hbefore; lia.
Qed.

(** X5. [monitorParentProcess] sends SIGTERM after [k+1] seconds exactly
    when the poll number [k] is the first that reads the parent pid 1; the
    pid read before the loop plays no part, so a process whose parent is
    pid 1 from the start gets the signal after one second. As long as no
    poll reads 1 it sends nothing. *)
Theorem monitorParentProcess_first_orphan_poll
    (ppidAt : nat → nat) (fuel : nat) :
  (∀ n, monitorParentProcess ppidAt fuel 0 = Some n ↔
        ∃ k, n = S k ∧ k < fuel ∧ ppidAt k = 1 ∧ ∀ j, j < k → ppidAt j ≠ 1)
  ∧ (0 < fuel → ppidAt 0 = 1 → monitorParentProcess ppidAt fuel 0 = Some 1)
  ∧ ((∀ k, k < fuel → ppidAt k ≠ 1) → monitorParentProcess ppidAt fuel 0 = None).
Proof.
  split_and!.
  - intros n. rewrite monitorParentProcess_from. split.
    + intros (k & -> & Hk & Hone & Hbefore). exists k.
      split_and!; try done; try lia. all: intros j Hj; apply Hbefore; lia.
    + intros (k & -> & Hk & Hone & Hbefore). exists k.
      split_and!; try done; try lia. all: intros j Hj; apply Hbefore; lia.
  - intros Hfuel Hone. apply monitorParentProcess_from. exists 0.
    split_and!; try done; try lia. all: intros j ?; lia.
  - intros Hnever.
    destruct (monitorParentProcess ppidAt fuel 0) as [n|] eqn:Hrun; [|done].
    apply monitorParentProcess_from in Hrun as (k & -> & Hk & Hone & _).
    exfalso. apply (Hnever k); [lia|done].
Qed.

Lemma monitorParentProcess_witness :
  monitorParentProcess (λ _, 1) 10 0 = Some 1.
Proof.
  destruct (monitorParentProcess_first_orphan_poll (λ _, 1) 10) as (_ & H & _).
  apply H; [lia|reflexivity].
Defined.

(** ** The command tree *)

Lemma CobraCommand_tree_ind (P : CobraCommand → Prop) :
  (∀ name subs, Forall P subs → P (MkCommand name subs)) →
  ∀ cmd, P cmd.
Proof.
  intros Hstep. fix IH 1. intros [name subs]. apply Hstep.
  induction subs as [|sub rest IHrest]; constructor; [apply IH|exact IHrest].
Qed.

Lemma getSubCommands_unfold (cmd : CobraCommand) :
  getSubCommands cmd
  = mjoin ((λ sub, sub :: getSubCommands sub) <$> Commands cmd).
Proof.
  destruct cmd as [name subs]. simpl.
  induction subs as [|sub rest IH]; [done|]. simpl. by rewrite IH.
Qed.

Lemma commandCount_unfold (cmd : CobraCommand) :
  commandCount cmd = S (sum_list (commandCount <$> Commands cmd)).
Proof.
  destruct cmd as [name subs]. simpl. f_equal.
  induction subs as [|sub rest IH]; [done|]. simpl. by rewrite IH.
Qed.

(** X6. [getSubCommands] returns the commands that lie below the given
    command in the tree, those and no other, each as often as it occurs
    in the tree: its length is the number of commands of the tree less the
    command itself, and a command without sub-commands gives the empty
    list. *)
Theorem getSubCommands_all_below (cmd : CobraCommand) :
  (∀ sub, sub ∈ getSubCommands cmd ↔ below sub cmd)
  ∧ S (length (getSubCommands cmd)) = commandCount cmd
  ∧ (Commands cmd = [] → getSubCommands cmd = []).
Proof.
  split_and!.
  - induction cmd as [name subs IH] using CobraCommand_tree_ind.
    intros sub. rewrite getSubCommands_unfold. simpl.
    rewrite list_elem_of_join. split.
    + intros (l & Hsub & (mid & -> & Hmid)%list_elem_of_fmap).
      rewrite Forall_forall in IH.
      apply elem_of_cons in Hsub as [->|Hsub].
      * by apply below_child.
      * apply (below_deeper _ mid); [done|]. by apply IH.
    + intros Hbelow. rewrite Forall_forall in IH.
      inversion Hbelow as [? ? Hin|? mid ? Hin Hdeep]; subst; simpl in Hin.
      * exists (sub :: getSubCommands sub). split; [by left|].
        apply list_elem_of_fmap. by exists sub.
      * exists (mid :: getSubCommands mid). split.
        -- right. by apply IH.
        -- apply list_elem_of_fmap. by exists mid.
  - induction cmd as [name subs IH] using CobraCommand_tree_ind.
    rewrite getSubCommands_unfold, commandCount_unfold. simpl. f_equal.
    induction IH as [|sub rest Hsub Hrest IHrest]; [done|].
    simpl in *. rewrite length_app, <- Hsub. simpl. do 2 f_equal. exact IHrest.
  - intros Hnone. by rewrite getSubCommands_unfold, Hnone.
Qed.

Lemma getSubCommands_witness :
  getSubCommands (MkCommand "config" []) = [].
Proof.
  destruct (getSubCommands_all_below (MkCommand "config" [])) as (_ & _ & H).
  by apply H.
Defined.

Lemma mlsCommandPreFunc_witness :
  (mlsCommandPreFunc (λ _, None) "/home/user/.moling").1
  = ["/home/user/.moling"; "/home/user/.moling/logs";
     "/home/user/.moling/config"; "/home/user/.moling/browser";
     "/home/user/.moling/data"; "/home/user/.moling/cache"].
Proof.
  destruct (mlsCommandPreFunc_fail_fast (λ _, None) "/home/user/.moling")
    as (_ & _ & Hall & _).
  exact (Hall eq_refl).
Defined.

(** ** Start-up, further *)







Lemma strings_Split_comma_nonempty (s : string) :
  0 < length (strings_Split_comma s).
Proof.
  induction s as [|c s IH]; simpl; [lia|].
  destruct (Ascii.eqb c ","); simpl; [lia|].
  destruct (strings_Split_comma s); simpl in *; lia.
Qed.

(** X8. With a module list in force, a provider whose name is not in the
    comma-separated list is never constructed, whatever happens to the
    other providers during start-up. *)
Theorem initServices_unlisted_never_constructed
    (mlConfig : MoLingConfig) (ctx : Context)
    (configJson : option (gmap string Json))
    (entries : list (MoLingServerType * ServiceFactory))
    (name : MoLingServerType) :
  Module mlConfig ≠ "Browser" →
  name ∉ strings_Split_comma (Module mlConfig) →
  name ∉ constructed (trace (initServices mlConfig ctx configJson entries)).
Proof.
  intros Hmod Hname Hin. unfold initServices in Hin.
  eapply elem_of_prefix in Hin; [|apply initServices_loop_constructed].
  apply list_elem_of_filter in Hin as [Hsel _].
  unfold selected, StringInSlice, moduleListOf in Hsel.
  rewrite decide_True in Hsel by done.
  rewrite bool_decide_true in Hsel by apply strings_Split_comma_nonempty.
  by rewrite bool_decide_false in Hsel.
Qed.

Lemma initServices_unlisted_witness :
  "Browser" ∉ strings_Split_comma (Module (configWithModule "Command,FileSystem"))
  ∧ "Browser" ∉ constructed
      (trace (initServices (configWithModule "Command,FileSystem")
                (createContext (configWithModule "Command,FileSystem"))
                None releaseEntries)).
Proof.
  assert (Hlist : "Browser" ∉ strings_Split_comma
                    (Module (configWithModule "Command,FileSystem"))).
  { change (strings_Split_comma (Module (configWithModule "Command,FileSystem")))
      with ["Command"; "FileSystem"].
    rewrite !elem_of_cons, elem_of_nil. intros [?|[?|[]]]; discriminate. }
  split; [exact Hlist|].
  apply initServices_unlisted_never_constructed; [discriminate|exact Hlist].
Defined.

Lemma initServices_loop_closers_names ctx configJson moduleList entries :
  ∀ svcs closers t svcs1 closers1,
  dom closers = list_to_set (svcName <$> svcs) →
  (∀ n s, closers !! n = Some s → svcName s = n ∧ s ∈ svcs) →
  initServices_loop ctx configJson moduleList entries svcs closers
    = (t, Returns (inl (svcs1, closers1))) →
  dom closers1 = list_to_set (svcName <$> svcs1)
  ∧ (∀ n s, closers1 !! n = Some s → svcName s = n ∧ s ∈ svcs1).
Proof.
  induction entries as [|[n f] rest IH];
    intros svcs closers t svcs1 closers1 Hdom Hinv Hrun.
  - simpl in Hrun. unfold mret, M_ret in Hrun. by simplify_eq.
  - destruct (selected moduleList n) eqn:Hsel.
    + rewrite initServices_loop_start in Hrun by done.
      destruct (initSingleService ctx n f configJson)
        as [tS [[service|err]|msg|]] eqn:HS; simplify_eq.
      cbn zeta in Hrun.
      destruct (initServices_loop ctx configJson moduleList rest _ _)
        as [tn on] eqn:Hnext.
      unfold trace, outcome in Hrun. simpl in Hrun. simplify_eq.
      eapply IH; [| |exact Hnext].
      * rewrite dom_insert_L, Hdom, fmap_app, list_to_set_app_L. simpl.
        set_solver.
      * intros m s. rewrite lookup_insert. case_decide as Hm.
        -- intros [= <-]. split; [done|]. apply elem_of_app. right. by left.
        -- intros Hs. destruct (Hinv _ _ Hs) as [? ?]. split; [done|].
           apply elem_of_app. by left.
    + rewrite initServices_loop_skip in Hrun by done.
      destruct (initServices_loop ctx configJson moduleList rest svcs closers)
        as [tn on] eqn:Hnext.
      unfold trace, outcome in Hrun. simpl in Hrun. simplify_eq.
      by eapply IH.
Qed.

Lemma size_names_le (names : list string) :
  size (list_to_set names : gset string) ≤ length names.
Proof.
  induction names as [|x l IH]; [by rewrite list_to_set_nil, size_empty|].
  rewrite list_to_set_cons. simpl.
  destruct (decide (x ∈ (list_to_set l : gset string))) as [Hin|Hnin].
  - replace ({[x]} ∪ list_to_set l : gset string) with (list_to_set l : gset string)
      by set_solver. lia.
  - rewrite size_union by set_solver. rewrite size_singleton. lia.
Qed.

(** X9. The closers map that [initServices] returns is keyed by the names
    the started providers report: its keys are exactly those names, and
    each key is bound to a started provider of that name. Its size is
    therefore the number of distinct names, so of two started providers
    that report the same name only one keeps a closer. *)
Theorem initServices_closers_by_name
    (mlConfig : MoLingConfig) (ctx : Context)
    (configJson : option (gmap string Json))
    (entries : list (MoLingServerType * ServiceFactory))
    (t : list Event) (svcs : list Service) (closers : gmap string Service) :
  initServices mlConfig ctx configJson entries
    = (t, Returns (inl (svcs, closers))) →
  dom closers = list_to_set (svcName <$> svcs)
  ∧ (∀ n s, closers !! n = Some s → svcName s = n ∧ s ∈ svcs)
  ∧ size closers ≤ length svcs
  ∧ (NoDup (svcName <$> svcs) → size closers = length svcs).
Proof.
  unfold initServices. intros Hrun.
  destruct (initServices_loop_closers_names ctx configJson
              (moduleListOf mlConfig) entries [] ∅ t svcs closers)
    as [Hdom Hinv];
    [by rewrite dom_empty_L|by intros n s; rewrite lookup_empty|done|].
  split_and!; [done|done|..].
  - rewrite <- size_dom, Hdom.
    etrans; [apply size_names_le|]. by rewrite length_fmap.
  - intros Hnd. rewrite <- size_dom, Hdom.
    rewrite size_list_to_set by done. by rewrite length_fmap.
Qed.

Lemma initServices_closers_by_name_witness :
  ∃ t svcs closers,
    initServices (configWithModule "Command,FileSystem")
      (createContext (configWithModule "Command,FileSystem")) None releaseEntries
    = (t, Returns (inl (svcs, closers)))
    ∧ size closers = length svcs.
Proof.
  eexists _, _, _. split; [reflexivity|].
  destruct (initServices_closers_by_name (configWithModule "Command,FileSystem")
              (createContext (configWithModule "Command,FileSystem"))
              None releaseEntries _ _ _ eq_refl) as (_ & _ & _ & Hsize).
  apply Hsize. simpl.
  apply NoDup_cons. split.
  - rewrite list_elem_of_singleton. discriminate.
  - apply NoDup_singleton.
Defined.

(** X10. A configuration section that is not a JSON object is ignored:
    start-up of that provider goes exactly as if there were no
    configuration document at all, without a call of [LoadConfig] and
    without an error. *)
Theorem initSingleService_section_not_object
    (ctx : Context) (serviceType : MoLingServerType)
    (serviceFactory : ServiceFactory) (doc : gmap string Json) (v : Json) :
  doc !! serviceType = Some v →
  (∀ fields, v ≠ JObject fields) →
  initSingleService ctx serviceType serviceFactory (Some doc)
  = initSingleService ctx serviceType serviceFactory None.
Proof.
  intros Hv Hobj. unfold initSingleService.
  destruct (call (EvFactory serviceType) (serviceFactory ctx)) as [t [[s|e]|msg|]];
    try done.
  simpl. rewrite Hv.
  destruct v; try done. by destruct (Hobj fields).
Qed.

Lemma initSingleService_section_not_object_witness :
  initSingleService (createContext (configWithModule "all")) "Browser"
    (factoryOf (healthy "Browser")) (Some {[ "Browser" := JString "fast" ]})
  = initSingleService (createContext (configWithModule "all")) "Browser"
      (factoryOf (healthy "Browser")) None.
Proof.
  apply (initSingleService_section_not_object _ _ _ _ (JString "fast")).
  - reflexivity.
  - discriminate.
Defined.

(** X11. [initSingleService] calls the factory first and once; it calls
    [LoadConfig] at most once and [Init] at most once, in this order. When
    the factory fails nothing else is called, and when [LoadConfig] fails
    [Init] is not called. The provider is handed back only if [Init]
    returned [nil]. *)
Theorem initSingleService_call_order
    (ctx : Context) (serviceType : MoLingServerType)
    (serviceFactory : ServiceFactory) (configJson : option (gmap string Json)) :
  let run := initSingleService ctx serviceType serviceFactory configJson in
  (∃ loads inits,
      trace run = EvFactory serviceType :: loads ++ inits
      ∧ (loads = [] ∨ ∃ n settings, loads = [EvLoadConfig n settings])
      ∧ (inits = [] ∨ ∃ n, inits = [EvInit n]))
  ∧ (∀ e, serviceFactory ctx = Returns (inr e) →
          trace run = [EvFactory serviceType])
  ∧ (∀ s settings s' e,
        serviceFactory ctx = Returns (inl s) →
        configJson ≫= (.!! serviceType) = Some (JObject settings) →
        svcLoadConfig s settings = Returns (s', Some e) →
        trace run = [EvFactory serviceType; EvLoadConfig (svcName s) settings])
  ∧ (∀ s, outcome run = Returns (inl s) →
          ∃ s0, svcInit s0 = Returns (s, None) ∧ last (trace run) = Some (EvInit (svcName s0))).
Proof.
  cbn zeta. split_and!.
  - unfold_run. run_cases;
      first [ by exists [], []; split_and!; [done|left|left]
            | by eexists [_], []; split_and!; [done|right; eauto|left]
            | by eexists [], [_]; split_and!; [done|left|right; eauto]
            | by eexists [_], [_]; split_and!; [done|right; eauto|right; eauto] ].
  - intros e He. unfold_run. by rewrite He.
  - intros s settings s' e Hf Hsec Hload. unfold_run. rewrite Hf. simpl.
    destruct configJson as [doc|]; [|done]. simpl in Hsec. rewrite Hsec.
    by rewrite Hload.
  - intros s Hrun. unfold_run. run_cases; eauto.
Qed.

Lemma initSingleService_call_order_witness :
  trace (initSingleService (createContext (configWithModule "all")) "Beta"
           (failingFactory "no display") None)
  = [EvFactory "Beta"].
Proof.
  destruct (initSingleService_call_order (createContext (configWithModule "all"))
              "Beta" (failingFactory "no display") None) as (_ & Hfail & _).
  by apply (Hfail "no display").
Defined.

(** ** The command, further *)

Lemma initSingleService_startupEvents ctx name f configJson :
  Forall startupEvent (trace (initSingleService ctx name f configJson)).
Proof. unfold_run. run_cases; repeat constructor. Qed.

Lemma startLog_startupEvents moduleList name :
  Forall startupEvent (startLog moduleList name).
Proof. unfold startLog. case_bool_decide; repeat constructor. Qed.

Lemma initServices_loop_startupEvents ctx configJson moduleList entries :
  ∀ svcs closers,
  Forall startupEvent
    (trace (initServices_loop ctx configJson moduleList entries svcs closers)).
Proof.
  induction entries as [|[n f] rest IH]; intros svcs closers; [constructor|].
  destruct (selected moduleList n) eqn:Hsel.
  - rewrite initServices_loop_start by done.
    pose proof (initSingleService_startupEvents ctx n f configJson) as HS.
    pose proof (startLog_startupEvents moduleList n) as HL.
    destruct (initSingleService ctx n f configJson) as [tS [[s|err]|msg|]];
      unfold trace in *; simpl in *; rewrite ?Forall_app; split_and?;
      try done; try apply IH.
    by repeat constructor.
  - rewrite initServices_loop_skip by done. unfold trace. simpl.
    constructor; [done|apply IH].
Qed.

(** X12. [mlsCommandFunc] removes the pid file only at the end of a run
    whose start-up was complete. When start-up fails after the pid file
    was created, because the configuration file is not valid or because a
    provider fails, it returns the error and leaves the pid file in
    place. *)
Theorem mlsCommandFunc_pid_file_left_on_failure
    (w : World) (mlConfig : MoLingConfig)
    (entries : list (MoLingServerType * ServiceFactory)) (err : error) :
  let pidFilePath := filepath_Join (BasePath mlConfig) MLPidName in
  let configFilePath := filepath_Join (BasePath mlConfig) (ConfigFile mlConfig) in
  let run := mlsCommandFunc w mlConfig entries in
  createPIDFile w pidFilePath = None →
  readConfigFile w configFilePath = inr err
  ∨ (∃ configJson,
        readConfigFile w configFilePath = inl configJson
        ∧ outcome (initServices mlConfig (createContext mlConfig) configJson entries)
          = Returns (inr err)) →
  outcome run = Returns (Some err)
  ∧ EvCreatePIDFile pidFilePath ∈ trace run
  ∧ (∀ p, EvRemovePIDFile p ∉ trace run).
Proof.
  cbn zeta. intros Hpid Hfail.
  unfold mlsCommandFunc, checkRunningInstance, loadConfigFile.
  unfold call, log, outcome, trace, mbind, M_bind, mret, M_ret. simpl.
  rewrite Hpid. simpl.
  destruct Hfail as [Hcfg|(configJson & Hcfg & Hinit)]; rewrite Hcfg; simpl.
  - split_and!; [done|set_solver|].
    intros p. cbn [fst]. rewrite !elem_of_cons, elem_of_nil. naive_solver.
  - pose proof (initServices_loop_startupEvents (createContext mlConfig) configJson
                  (moduleListOf mlConfig) entries [] ∅) as Hev.
    unfold initServices, outcome, trace in *.
    destruct (initServices_loop _ _ _ _ _ _) as [t o]. simpl in *. subst o.
    split_and!; [done|set_solver|].
    intros p. cbn [fst].
    rewrite !elem_of_cons, !elem_of_app, !elem_of_cons, elem_of_nil.
    rewrite Forall_forall in Hev.
    intros [?|[?|[?|[?|[Hin|[?|[?|[]]]]]]]]; try done.
    by apply Hev in Hin.
Qed.

Lemma mlsCommandFunc_pid_file_left_witness :
  outcome (initServices (configWithModule "Alpha,Beta,Gamma")
             (createContext (configWithModule "Alpha,Beta,Gamma")) None abcEntries)
  = Returns (inr "failed to initialize service Beta: boom")
  ∧ ∀ p, EvRemovePIDFile p ∉
         trace (mlsCommandFunc quietWorld (configWithModule "Alpha,Beta,Gamma")
                  abcEntries).
Proof.
  split; [reflexivity|].
  destruct (mlsCommandFunc_pid_file_left_on_failure quietWorld
              (configWithModule "Alpha,Beta,Gamma") abcEntries
              "failed to initialize service Beta: boom") as (_ & _ & Hleft).
  - reflexivity.
  - right. exists None. split; reflexivity.
  - exact Hleft.
Defined.

Lemma adaptServices_trace (svcs : list Service) :
  adaptServices svcs
  = (svcs ≫= (λ s, [EvLog DebugLevel None "Loading service"; EvAdapt (svcName s)]),
     Returns tt).
Proof.
  induction svcs as [|s rest IH]; [done|].
  cbn [adaptServices]. rewrite IH.
  unfold call, log, mbind, M_bind, mret, M_ret. done.
Qed.

Lemma adapted_adaptServices (svcs : list Service) :
  adapted (trace (adaptServices svcs)) = svcName <$> svcs.
Proof.
  rewrite adaptServices_trace. unfold trace. simpl.
  induction svcs as [|s rest IH]; [done|]. simpl. by f_equal.
Qed.

(** X13. A complete run of [mlsCommandFunc]: the pid file is created
    before anything is done with a provider; after start-up every started
    provider is adapted once, in the order of the provider list; on the
    shutdown signal the shared context is cancelled, then the pid file is
    removed, and the deferred cancel runs last. The result of the command
    is the result of the pid file removal. *)
Theorem mlsCommandFunc_complete_run
    (w : World) (mlConfig : MoLingConfig)
    (entries : list (MoLingServerType * ServiceFactory))
    (configJson : option (gmap string Json))
    (t : list Event) (svcs : list Service) (closers : gmap string Service) :
  let pidFilePath := filepath_Join (BasePath mlConfig) MLPidName in
  let configFilePath := filepath_Join (BasePath mlConfig) (ConfigFile mlConfig) in
  createPIDFile w pidFilePath = None →
  readConfigFile w configFilePath = inl configJson →
  initServices mlConfig (createContext mlConfig) configJson entries
    = (t, Returns (inl (svcs, closers))) →
  (∀ e msg, e ∈ rangeClosers w closers → svcClose e.2 ≠ Panics msg) →
  mlsCommandFunc w mlConfig entries
  = ([EvLog InfoLevel None "Starting MoLing MCP Server...";
      EvCreatePIDFile pidFilePath;
      EvLog InfoLevel None "start";
      EvLog InfoLevel None "load config file"]
       ++ t
       ++ trace (adaptServices svcs)
       ++ [EvLog InfoLevel None "Received signal, shutting down...";
           EvCancel;
           EvLog InfoLevel None
             (caseMessage (sd_case (shutdownServices (schedule w)
                                      (rangeClosers w closers))));
           EvRemovePIDFile pidFilePath]
       ++ pidFileLog pidFilePath (removePIDFile w pidFilePath)
       ++ [EvCancel],
     Returns (removePIDFile w pidFilePath))
  ∧ adapted (trace (adaptServices svcs)) = svcName <$> svcs.
Proof.
  cbn zeta. intros Hpid Hcfg Hinit Hno. split; [|apply adapted_adaptServices].
  unfold mlsCommandFunc, checkRunningInstance, loadConfigFile, startMoLingServer,
    call, log, mbind, M_bind, mret, M_ret.
  cbn -[waitForShutdownSignal adaptServices initServices].
  rewrite Hpid. cbn -[waitForShutdownSignal adaptServices initServices].
  rewrite Hcfg. cbn -[waitForShutdownSignal adaptServices initServices].
  rewrite Hinit. cbn -[waitForShutdownSignal adaptServices initServices].
  rewrite adaptServices_trace.
  cbn -[waitForShutdownSignal adaptServices initServices].
  rewrite (waitForShutdownSignal_trace _ _ _ _ Hno).
  unfold trace. cbn [fst snd app].
  by rewrite ?app_nil_r, <- ?app_assoc.
Qed.

Lemma mlsCommandFunc_complete_run_witness :
  outcome (mlsCommandFunc quietWorld (configWithModule "Command,FileSystem")
             releaseEntries) = Returns None.
Proof.
  edestruct (mlsCommandFunc_complete_run quietWorld
               (configWithModule "Command,FileSystem") releaseEntries None)
    as [Hrun _].
  - reflexivity.
  - reflexivity.
  - reflexivity.
  - intros e msg Hin. apply elem_of_map_to_list' in Hin.
    revert Hin. rewrite !lookup_insert. repeat case_decide; simpl;
      intros [= <-]; discriminate.
  - rewrite Hrun. reflexivity.
Defined.

(** ** Shutdown, further *)

(** X14. When every [Close] returns, the calling goroutine goes on at the
    moment the last one returns or at the deadline, whichever comes
    first. A [Close] that takes longer than the deadline is therefore not
    waited for: the timeout case runs at 5000 ms, as for a [Close] that
    never returns. *)
Theorem shutdown_deadline_cuts_off (sch : Schedule)
    (entries : list (string * Service)) :
  (∀ e, e ∈ entries → ∃ r, svcClose e.2 = Returns r) →
  let sd := shutdownServices sch entries in
  let last := max_list (closeTime sch <$> entries.*1) in
  sd_wake sd = shutdownTimeout `min` last
  ∧ (last < shutdownTimeout → sd_case sd = CaseDone)
  ∧ (shutdownTimeout < last →
     sd_case sd = CaseTimeout
     ∧ sd_main sd
       = ([EvCancel;
           EvLog InfoLevel None "timeout, all services closed forcefully"],
          Returns tt)).
Proof.
  intros Hall. cbn zeta.
  assert (Hno : ∀ e msg, e ∈ entries → svcClose e.2 ≠ Panics msg).
  { intros e msg He. destruct (Hall e He) as [r ->]. done. }
  unfold shutdownServices.
  rewrite (panicAt_none _ _ Hno), (doneAt_all_returned _ _ Hall).
  unfold selectCase.
  generalize (max_list (closeTime sch <$> entries.*1)). intros m.
  repeat case_bool_decide;
    cbn [sd_wake sd_case sd_main fst snd]; split_and!; try lia; try done.
Qed.

Lemma shutdown_deadline_cuts_off_witness :
  sd_wake (shutdownServices slowSchedule slowClosers) = 5000
  ∧ sd_case (shutdownServices slowSchedule slowClosers) = CaseTimeout.
Proof.
  destruct (shutdown_deadline_cuts_off slowSchedule slowClosers)
    as (Hwake & _ & Hlate).
  - unfold slowClosers. intros e. rewrite !elem_of_cons, elem_of_nil.
    intros [->|[->|[]]]; by eexists.
  - split; [exact Hwake|]. apply Hlate. vm_compute. lia.
Defined.

(** ** The browser configuration *)

(** X15. [BrowserConfig.Check] returns [nil] exactly when the three
    time-outs are positive and the prompt file, if one is named, can be
    read. The time-outs are tested first, in the order time-out, URL
    time-out, selector query time-out, and the first that is not positive
    decides the error. *)
Theorem BrowserConfig_Check_accepts (host : Host) (cfg : BrowserConfig) :
  ((BrowserConfig_Check host cfg).2 = None ↔
   (0 < Timeout cfg)%Z ∧ (0 < URLTimeout cfg)%Z
   ∧ (0 < SelectorQueryTimeout cfg)%Z
   ∧ (PromptFile cfg = "" ∨ ∃ text, os_ReadFile host (PromptFile cfg) = inl text))
  ∧ ((Timeout cfg ≤ 0)%Z →
     (BrowserConfig_Check host cfg).2 = Some "timeout must be greater than 0")
  ∧ ((0 < Timeout cfg)%Z → (URLTimeout cfg ≤ 0)%Z →
     (BrowserConfig_Check host cfg).2 = Some "URL timeout must be greater than 0")
  ∧ ((0 < Timeout cfg)%Z → (0 < URLTimeout cfg)%Z →
     (SelectorQueryTimeout cfg ≤ 0)%Z →
     (BrowserConfig_Check host cfg).2
     = Some "selector Query timeout must be greater than 0").
Proof.
  unfold BrowserConfig_Check. simpl. split_and!.
  - repeat case_bool_decide; simpl;
      try (split; [done|intros (? & ? & ? & ?); lia]).
    + destruct (os_ReadFile host (PromptFile cfg)) as [text|err]; simpl.
      * split; [|done]. intros _. split_and!; try lia. right. by exists text.
      * split; [done|]. intros (_ & _ & _ & [?|[text ?]]); done.
    + split; [|done]. intros _. split_and!; try lia. by left.
  - intros ?. by rewrite bool_decide_true.
  - intros ? ?. rewrite bool_decide_false by lia. by rewrite bool_decide_true.
  - intros ? ? ?. rewrite !bool_decide_false by lia. by rewrite bool_decide_true.
Qed.

Lemma BrowserConfig_Check_accepts_witness :
  (BrowserConfig_Check quietHost
     {| PromptFile := ""; prompt := ""; Headless := true; Timeout := 0;
        Proxy := ""; UserAgent := ""; DefaultLanguage := "";
        URLTimeout := 10; SelectorQueryTimeout := 20;
        DataPath := ""; BrowserDataPath := "" |}).2
  = Some "timeout must be greater than 0".
Proof.
  edestruct BrowserConfig_Check_accepts as (_ & Hzero & _).
  apply Hzero. simpl. lia.
Defined.

(** X16. [Check] changes nothing in the configuration but the prompt. It
    overwrites the prompt in every case, also when it reports an error:
    with the content of the prompt file when it accepts a configuration
    that names one, with the built-in prompt otherwise. *)
Theorem BrowserConfig_Check_sets_prompt_only (host : Host) (cfg : BrowserConfig) :
  let cfg' := (BrowserConfig_Check host cfg).1 in
  cfg' = with_prompt (prompt cfg') cfg
  ∧ ((BrowserConfig_Check host cfg).2 ≠ None → prompt cfg' = BrowserPromptDefault)
  ∧ ((BrowserConfig_Check host cfg).2 = None → PromptFile cfg = "" →
     prompt cfg' = BrowserPromptDefault)
  ∧ (∀ text, (BrowserConfig_Check host cfg).2 = None → PromptFile cfg ≠ "" →
             os_ReadFile host (PromptFile cfg) = inl text → prompt cfg' = text).
Proof.
  cbn zeta. unfold BrowserConfig_Check. cbn [PromptFile Timeout URLTimeout
    SelectorQueryTimeout with_prompt].
  repeat case_bool_decide; cbn [fst snd]; try (split_and!; by intros).
  destruct (os_ReadFile host (PromptFile cfg)) as [text|err]; cbn [fst snd].
  - split_and!; try done. by intros text' _ _ [= ->].
  - split_and!; done.
Qed.

(** X17. [Check] is idempotent: checking once more a configuration that
    was just checked gives the same configuration and the same verdict. *)
Theorem BrowserConfig_Check_idempotent (host : Host) (cfg : BrowserConfig) :
  BrowserConfig_Check host (BrowserConfig_Check host cfg).1
  = BrowserConfig_Check host cfg.
Proof.
  unfold BrowserConfig_Check. cbn [PromptFile Timeout URLTimeout
    SelectorQueryTimeout with_prompt].
  repeat case_bool_decide; cbn [fst snd PromptFile Timeout URLTimeout
    SelectorQueryTimeout with_prompt]; try done.
  all: repeat (rewrite bool_decide_true by done);
       repeat (rewrite bool_decide_false by done); try done.
  all: destruct (os_ReadFile host (PromptFile cfg)) as [text|err] eqn:Hread;
       cbn [fst snd PromptFile Timeout URLTimeout SelectorQueryTimeout
            with_prompt];
       repeat (rewrite bool_decide_true by done);
       repeat (rewrite bool_decide_false by done);
       rewrite ?Hread; done.
Qed.

(** ** The browser data directory *)

(** X18. [initBrowser] succeeds exactly when the user data directory
    exists already or can be created. An existing directory is reused
    whatever is found inside: a lock file that cannot be removed does not
    make it fail. An error of [os.Stat] other than absence is reported
    without an attempt to create the directory. *)
Theorem initBrowser_succeeds (host : Host) (userDataDir : string) :
  (initBrowser host userDataDir = None ↔
   os_Stat host userDataDir = StatOk
   ∨ (os_Stat host userDataDir = StatNotExist
      ∧ os_MkdirAll host userDataDir = None))
  ∧ (∀ e, os_Stat host userDataDir = StatError e →
          initBrowser host userDataDir
          = Some ("failed to stat user data directory: " +:+ e))
  ∧ (∀ e, os_Stat host userDataDir = StatNotExist →
          os_MkdirAll host userDataDir = Some e →
          initBrowser host userDataDir
          = Some ("failed to create user data directory: " +:+ e)).
Proof.
  unfold initBrowser. split_and!.
  - destruct (os_Stat host userDataDir) eqn:Hstat.
    + split; [by left|]. intros _.
      by destruct (os_Stat host (filepath_Join userDataDir "SingletonLock")).
    + destruct (os_MkdirAll host userDataDir) eqn:Hmk.
      * split; [done|]. intros [?|[_ ?]]; done.
      * split; [by right|done].
    + split; [done|]. intros [?|[? _]]; done.
  - by intros e ->.
  - by intros e -> ->.
Qed.

Lemma initBrowser_succeeds_witness :
  initBrowser deniedHost "/home/user/.moling/browser"
  = Some "failed to stat user data directory: permission denied".
Proof.
  destruct (initBrowser_succeeds deniedHost "/home/user/.moling/browser")
    as (_ & Hstat & _).
  by apply Hstat.
Defined.

Lemma BrowserConfig_Check_sets_prompt_only_witness :
  prompt (BrowserConfig_Check quietHost (NewBrowserConfig quietHost)).1
  = BrowserPromptDefault.
Proof.
  destruct (BrowserConfig_Check_sets_prompt_only quietHost
              (NewBrowserConfig quietHost)) as (_ & _ & Hdefault & _).
  by apply Hdefault.
Defined.

(** ** Trimming the screenshot name *)

Lemma inCutset_app (c : ascii) (s1 s2 : string) :
  inCutset c (s1 +:+ s2) = inCutset c s1 || inCutset c s2.
Proof.
  induction s1 as [|d s1 IH]; [done|]. simpl. rewrite IH.
  by rewrite orb_assoc.
Qed.

Lemma strings_TrimRight_all (s cutset : string) :
  allInCutset s cutset = true → strings_TrimRight s cutset = "".
Proof.
  induction s as [|c s IH]; [done|]. simpl.
  intros [Hc Hs]%andb_true_iff. by rewrite IH, Hc.
Qed.

Lemma strings_TrimRight_app (s suffix cutset : string) :
  allInCutset suffix cutset = true →
  strings_TrimRight (s +:+ suffix) cutset = strings_TrimRight s cutset.
Proof.
  intros Hsuffix. induction s as [|c s IH]; simpl.
  - by apply strings_TrimRight_all.
  - by rewrite IH.
Qed.

Lemma strings_TrimRight_split (s cutset : string) :
  ∃ cut, s = strings_TrimRight s cutset +:+ cut ∧ allInCutset cut cutset = true.
Proof.
  induction s as [|c s (cut & Hs & Hcut)]; [by exists ""|]. simpl.
  destruct (strings_TrimRight s cutset) as [|d rest] eqn:Htrim.
  - destruct (inCutset c cutset) eqn:Hc.
    + exists (String c cut). simpl in *. rewrite Hc, Hcut. by rewrite Hs at 1.
    + exists cut. simpl in *. by rewrite Hs at 1.
  - exists cut. simpl in *. by rewrite Hs at 1.
Qed.

Lemma append_nil_l (s : string) : "" +:+ s = s.
Proof. reflexivity. Qed.

Lemma append_cons_l (a : ascii) (s t : string) :
  String a s +:+ t = String a (s +:+ t).
Proof. reflexivity. Qed.

Lemma strings_TrimRight_last (s cutset stem : string) (c : ascii) :
  strings_TrimRight s cutset = stem +:+ String c EmptyString →
  inCutset c cutset = false.
Proof.
  revert stem. induction s as [|a s IH]; intros stem; simpl.
  - by destruct stem.
  - destruct (strings_TrimRight s cutset) as [|d rest] eqn:Htrim.
    + destruct (inCutset a cutset) eqn:Ha; [by destruct stem|].
      destruct stem as [|b [|b' stem]]; intros Heq;
        rewrite ?append_cons_l, ?append_nil_l in Heq; by simplify_eq.
    + destruct stem as [|b stem]; intros Heq;
        rewrite ?append_cons_l, ?append_nil_l in Heq; simplify_eq.
      by apply (IH stem).
Qed.

(** ** Providers, further *)

Section FurtherProviderProperties.
Context {Resource ResourceTemplate : Type}.
Context `{Countable Resource, Countable ResourceTemplate}.
Context {Prompt Tool : Type}.
Context {ResourceHandlerFunc ResourceTemplateHandlerFunc PromptHandlerFunc
         ToolHandlerFunc NotificationHandlerFunc : Type}.
Context (host : Host).
Context (browser_prompt : @PromptEntry Prompt PromptHandlerFunc).
Context (browser_tools : list (Tool * ToolHandlerFunc)).

Local Abbreviation BrowserServerT :=
  (@BrowserServer Resource ResourceTemplate _ _ _ _ Prompt Tool
     ResourceHandlerFunc ResourceTemplateHandlerFunc PromptHandlerFunc
     ToolHandlerFunc NotificationHandlerFunc).
Local Abbreviation MLServiceT :=
  (@MLService Resource ResourceTemplate _ _ _ _ Prompt Tool
     ResourceHandlerFunc ResourceTemplateHandlerFunc PromptHandlerFunc
     ToolHandlerFunc NotificationHandlerFunc).
Local Abbreviation AddOpT :=
  (@AddOp Resource ResourceTemplate Prompt Tool ResourceHandlerFunc
     ResourceTemplateHandlerFunc PromptHandlerFunc ToolHandlerFunc
     NotificationHandlerFunc).
Local Abbreviation EndpointCallT :=
  (@EndpointCall Resource ResourceTemplate Prompt Tool ResourceHandlerFunc
     ResourceTemplateHandlerFunc PromptHandlerFunc ToolHandlerFunc
     NotificationHandlerFunc).
Local Abbreviation RangeOrdersT :=
  (@RangeOrders Resource ResourceTemplate ResourceHandlerFunc
     ResourceTemplateHandlerFunc NotificationHandlerFunc).
Local Abbreviation browserInit :=
  (BrowserServer_Init host browser_prompt browser_tools).
Local Abbreviation OpToolT :=
  (@OpTool Resource ResourceTemplate Prompt Tool ResourceHandlerFunc
     ResourceTemplateHandlerFunc PromptHandlerFunc ToolHandlerFunc
     NotificationHandlerFunc).
Local Abbreviation browserOpsT :=
  (@browserOps Resource ResourceTemplate Prompt Tool ResourceHandlerFunc
     ResourceTemplateHandlerFunc PromptHandlerFunc ToolHandlerFunc
     NotificationHandlerFunc browser_prompt browser_tools).

(** *** The capability collections *)

Lemma applyOps_snoc (ops : list AddOpT) (op : AddOpT) (mls : MLServiceT) :
  applyOps (ops ++ [op]) mls = applyOp (applyOps ops mls) op.
Proof. unfold applyOps. by rewrite foldl_app. Qed.

Lemma applyOps_Resources (ops : list AddOpT) (mls : MLServiceT) (rs : Resource) :
  Resources (applyOps ops mls) !! rs
  = match last (filter (λ e, e.1 = rs) (resourceOps ops)) with
    | Some e => Some e.2
    | None => Resources mls !! rs
    end.
Proof.
  induction ops as [|op ops IH] using rev_ind; [done|].
  rewrite applyOps_snoc. unfold resourceOps in *. rewrite omap_app.
  destruct op as [rs' hr| | | |]; simpl; rewrite ?app_nil_r; try exact IH.
  unfold Resources in *. simpl. rewrite filter_app, filter_cons, filter_nil.
  rewrite lookup_insert. simpl. case_decide as Hrs.
  - by rewrite last_snoc.
  - by rewrite app_nil_r.
Qed.

Lemma applyOps_Tools (ops : list AddOpT) (mls : MLServiceT) :
  Tools (applyOps ops mls) = Tools mls ++ toolOps ops.
Proof.
  induction ops as [|op ops IH] using rev_ind.
  - simpl. by rewrite app_nil_r.
  - rewrite applyOps_snoc. unfold toolOps in *. rewrite omap_app.
    destruct op; simpl; rewrite ?app_nil_r; try exact IH.
    unfold Tools in *. simpl. by rewrite IH, app_assoc.
Qed.

Lemma applyOps_MlConfig (ops : list AddOpT) (mls : MLServiceT) :
  MlConfig (applyOps ops mls) = MlConfig mls.
Proof.
  induction ops as [|op ops IH] using rev_ind; [done|].
  rewrite applyOps_snoc. by destruct op.
Qed.

Lemma applyOps_no_resources (ops : list AddOpT) (mls : MLServiceT) :
  resourceOps ops = [] → Resources (applyOps ops mls) = Resources mls.
Proof.
  intros Hops. apply map_eq. intros rs.
  by rewrite applyOps_Resources, Hops.
Qed.

(** X19. After any sequence of add-operations a provider's resource map
    binds a descriptor to the handler added last for it, its tools are the
    tools it had followed by the added ones in the order of the additions,
    and its global configuration is untouched. *)
Theorem applyOps_collections (ops : list AddOpT) (mls : MLServiceT)
    (rs : Resource) :
  Resources (applyOps ops mls) !! rs
  = match last (filter (λ e, e.1 = rs) (resourceOps ops)) with
    | Some e => Some e.2
    | None => Resources mls !! rs
    end
  ∧ Tools (applyOps ops mls) = Tools mls ++ toolOps ops
  ∧ MlConfig (applyOps ops mls) = MlConfig mls.
Proof.
  split_and!;
    [apply applyOps_Resources|apply applyOps_Tools|apply applyOps_MlConfig].
Qed.

(** *** The adapter over all providers *)

Lemma loadService_append (o : RangeOrdersT) (srv : MLServiceT)
    (server : list EndpointCallT) :
  loadService o srv server = (server ++ (loadService o srv []).1, None).
Proof. unfold loadService. simpl. by rewrite <- !app_assoc. Qed.

Lemma MoLingServer_init_append (services : list (RangeOrdersT * MLServiceT))
    (server : list EndpointCallT) :
  MoLingServer_init services None server
  = (server ++ (services ≫= λ e, (loadService e.1 e.2 []).1), None).
Proof.
  revert server. induction services as [|[o srv] rest IH]; intros server.
  - simpl. by rewrite app_nil_r.
  - cbn [MoLingServer_init]. rewrite loadService_append. rewrite IH.
    simpl. by rewrite <- app_assoc.
Qed.

Lemma loadService_promptCalls (o : RangeOrdersT) (srv : MLServiceT) :
  promptCalls (loadService o srv []).1
  = (λ pe, (PromptEntry_Prompt pe, PromptEntry_Handler pe)) <$> Prompts srv.
Proof.
  unfold loadService. cbn [fst app]. rewrite !promptCalls_app.
  rewrite !promptCalls_other by done. simpl.
  by rewrite promptCalls_prompts.
Qed.

Lemma filter_stage_other {A : Type} (k : nat) (f : A → EndpointCallT)
    (l : list A) :
  (∀ a, stage (f a) ≠ k) → filter (λ c, stage c = k) (map f l) = [].
Proof.
  intros Hf. apply filter_none. by intros c (a & -> & _)%list_elem_of_fmap.
Qed.

Lemma loadService_one_AddTools (o : RangeOrdersT) (srv : MLServiceT) :
  length (filter (λ c, stage c = 2) (loadService o srv []).1) = 1.
Proof.
  unfold loadService. cbn [fst app]. rewrite !filter_app, !length_app.
  by rewrite !filter_stage_other by done.
Qed.

(** X20. [NewMoLingServer] never fails, and loading a list of providers
    is loading each of them in turn: the endpoint receives the calls of
    the first provider, then those of the second, and so on, so the
    prompts of all providers reach it grouped by provider, in the order of
    the provider list, and there is one [AddTools] call for each
    provider. *)
Theorem NewMoLingServer_concatenates
    (services : list (RangeOrdersT * MLServiceT)) :
  (NewMoLingServer services).2 = None
  ∧ (NewMoLingServer services).1
    = services ≫= (λ e, (loadService e.1 e.2 []).1)
  ∧ promptCalls (NewMoLingServer services).1
    = services ≫= (λ e, (λ pe, (PromptEntry_Prompt pe, PromptEntry_Handler pe))
                          <$> Prompts e.2)
  ∧ length (filter (λ c, stage c = 2) (NewMoLingServer services).1)
    = length services.
Proof.
  unfold NewMoLingServer. rewrite MoLingServer_init_append. cbn [fst snd app].
  split_and!; [done|done|..].
  - induction services as [|[o srv] rest IH]; [done|].
    rewrite !bind_cons, promptCalls_app, IH. f_equal.
    apply loadService_promptCalls.
  - induction services as [|[o srv] rest IH]; [done|].
    rewrite bind_cons, filter_app, length_app, IH. cbn [fst snd length].
    by rewrite loadService_one_AddTools.
Qed.

(** *** The browser provider: what [Init] registers *)

Lemma toolOps_tools (l : list (Tool * ToolHandlerFunc)) :
  toolOps (map (λ t, OpToolT t.1 t.2) l)
  = map (λ t, {| st_Tool := t.1; st_Handler := t.2 |}) l.
Proof. induction l as [|t l IH]; [done|]. simpl. f_equal. exact IH. Qed.

Lemma toolOps_no_prompts (l : list (Tool * ToolHandlerFunc)) :
  promptOps (map (λ t, OpToolT t.1 t.2) l) = [].
Proof. induction l as [|t l IH]; [done|]. exact IH. Qed.

Lemma toolOps_no_resources (l : list (Tool * ToolHandlerFunc)) :
  resourceOps (map (λ t, OpToolT t.1 t.2) l) = [].
Proof. induction l as [|t l IH]; [done|]. exact IH. Qed.

Lemma BrowserServer_Init_config (bs bs' : BrowserServerT) (e : option error) :
  browserInit bs = Returns (bs', e) → config bs' = config bs.
Proof.
  unfold BrowserServer_Init. intros Hinit.
  destruct (initBrowser host _); [by simplify_eq|].
  destruct (utils_CreateDirectory host _); by simplify_eq.
Qed.

Lemma browserOps_applied (mls : MLServiceT) :
  Prompts (applyOps browserOpsT mls) = Prompts mls ++ [browser_prompt]
  ∧ Tools (applyOps browserOpsT mls)
    = Tools mls ++ map (λ t, {| st_Tool := t.1; st_Handler := t.2 |}) browser_tools
  ∧ Resources (applyOps browserOpsT mls) = Resources mls
  ∧ MlConfig (applyOps browserOpsT mls) = MlConfig mls.
Proof.
  assert (Hp : promptOps browserOpsT = [browser_prompt]).
  { transitivity (browser_prompt
       :: promptOps (map (λ t, OpToolT t.1 t.2) browser_tools));
      [done|]. by rewrite toolOps_no_prompts. }
  assert (Ht : toolOps browserOpsT
               = map (λ t, {| st_Tool := t.1; st_Handler := t.2 |}) browser_tools).
  { transitivity (toolOps (map (λ t, OpToolT t.1 t.2) browser_tools));
      [done|]. apply toolOps_tools. }
  assert (Hr : resourceOps browserOpsT = []).
  { transitivity (resourceOps (map (λ t, OpToolT t.1 t.2) browser_tools));
      [done|]. apply toolOps_no_resources. }
  split_and!.
  - by rewrite Prompts_applyOps, Hp.
  - by rewrite applyOps_Tools, Ht.
  - by apply applyOps_no_resources.
  - apply applyOps_MlConfig.
Qed.

(** X21. [BrowserServer.Init] is all or nothing on the provider's
    capabilities: when it fails the provider is as it was, and when it
    succeeds the provider has gained exactly the browser prompt, after the
    prompts it had, and the browser tools, after the tools it had and in
    the order of the source, while its resources, its typed configuration
    and its global configuration are unchanged. *)
Theorem BrowserServer_Init_all_or_nothing (bs bs' : BrowserServerT)
    (e : option error) :
  browserInit bs = Returns (bs', e) →
  (is_Some e ∧ bs' = bs)
  ∨ (e = None
     ∧ Prompts (bs_MLService bs') = Prompts (bs_MLService bs) ++ [browser_prompt]
     ∧ Tools (bs_MLService bs')
       = Tools (bs_MLService bs)
         ++ map (λ t, {| st_Tool := t.1; st_Handler := t.2 |}) browser_tools
     ∧ Resources (bs_MLService bs') = Resources (bs_MLService bs)
     ∧ config bs' = config bs
     ∧ MlConfig (bs_MLService bs') = MlConfig (bs_MLService bs)).
Proof.
  unfold BrowserServer_Init.
  destruct (initBrowser host _); [intros [= <- <-]; eauto|].
  destruct (utils_CreateDirectory host _); intros [= <- <-]; [eauto|].
  right. destruct (browserOps_applied (bs_MLService bs)) as (Hp & Ht & Hr & Hc).
  by split_and!.
Qed.

(** *** The browser provider: configuration and prompt *)

Lemma BrowserConfig_Check_success (cfg cfg' : BrowserConfig) :
  BrowserConfig_Check host cfg = (cfg', None) →
  (0 < Timeout cfg')%Z ∧ (0 < URLTimeout cfg')%Z
  ∧ (0 < SelectorQueryTimeout cfg')%Z
  ∧ PromptFile cfg' = PromptFile cfg
  ∧ (PromptFile cfg = "" ∧ prompt cfg' = BrowserPromptDefault
     ∨ PromptFile cfg ≠ "" ∧ os_ReadFile host (PromptFile cfg) = inl (prompt cfg')).
Proof.
  unfold BrowserConfig_Check. cbn [with_prompt Timeout URLTimeout
    SelectorQueryTimeout PromptFile].
  repeat case_bool_decide; try (by intros [= ]).
  - destruct (os_ReadFile host (PromptFile cfg)) eqn:Hread; intros [= <-].
    simpl. split_and!; try lia; try done. by right.
  - intros [= <-]. simpl. split_and!; try lia; try done. left. split; [|done].
    by destruct (decide (PromptFile cfg = "")).
Qed.

(** X22. [BrowserServer.LoadConfig] touches the typed configuration
    only: capabilities and cancel functions are as before. When it
    returns nil the three time-outs of the stored configuration are
    positive, and the prompt served afterwards by [handlePrompt], also
    after [Init], is one user message whose text is the built-in prompt
    when no prompt file is configured and the content of the prompt file
    otherwise. *)
Theorem BrowserServer_LoadConfig_then_prompt (bs bs1 bs2 : BrowserServerT)
    (jsonData : gmap string Json) (e : option error) :
  BrowserServer_LoadConfig host bs jsonData = (bs1, None) →
  browserInit bs1 = Returns (bs2, e) →
  bs_MLService bs1 = bs_MLService bs
  ∧ cancelAlloc bs1 = cancelAlloc bs ∧ cancelChrome bs1 = cancelChrome bs
  ∧ (0 < Timeout (config bs1))%Z ∧ (0 < URLTimeout (config bs1))%Z
  ∧ (0 < SelectorQueryTimeout (config bs1))%Z
  ∧ ∃ text,
      BrowserServer_handlePrompt bs2
      = ({| gp_Description := "";
            gp_Messages := [{| pm_Role := "user"; pm_Type := "text";
                               pm_Text := text |}] |}, None)
      ∧ (PromptFile (config bs1) = "" ∧ text = BrowserPromptDefault
         ∨ PromptFile (config bs1) ≠ ""
           ∧ os_ReadFile host (PromptFile (config bs1)) = inl text).
Proof.
  unfold BrowserServer_LoadConfig. intros Hload Hinit.
  destruct (utils_MergeJSONToStruct host _ (config bs) jsonData)
    as [merged [err|]]; [done|].
  destruct (BrowserConfig_Check host merged) as [cfg' err'] eqn:Hcheck.
  simplify_eq. cbn [bs_MLService config cancelAlloc cancelChrome] in *.
  destruct (BrowserConfig_Check_success _ _ Hcheck)
    as (Ht & Hu & Hs & Hfile & Hprompt).
  split_and!; try done.
  exists (prompt cfg'). split.
  - unfold BrowserServer_handlePrompt. do 4 f_equal.
    assert (config bs2 = cfg') as ->; [|done].
    apply (BrowserServer_Init_config _ _ _ Hinit).
  - rewrite Hfile. exact Hprompt.
Qed.

(** X23. A browser provider as [NewBrowserServer] makes it has no
    capabilities and keeps its data and its browser profile under the
    base path of the global configuration; started without [LoadConfig],
    as happens when the configuration file has no section for it, it
    serves a prompt whose text is empty, whether [Init] succeeds or
    not. *)
Theorem NewBrowserServer_unconfigured_prompt (ctx : Context)
    (bs bs' : BrowserServerT) (e : option error) :
  NewBrowserServer host ctx = Returns (inl bs) →
  browserInit bs = Returns (bs', e) →
  Prompts (bs_MLService bs) = [] ∧ Tools (bs_MLService bs) = []
  ∧ Resources (bs_MLService bs) = ∅
  ∧ DataPath (config bs) = filepath_Join (BasePath (ctx_mlConfig ctx)) "data"
  ∧ BrowserDataPath (config bs)
    = filepath_Join (BasePath (ctx_mlConfig ctx)) "browser"
  ∧ BrowserServer_handlePrompt bs'
    = ({| gp_Description := "";
          gp_Messages := [{| pm_Role := "user"; pm_Type := "text";
                             pm_Text := "" |}] |}, None).
Proof.
  unfold NewBrowserServer. intros Hnew Hinit.
  destruct (ctx_logger ctx); [|done]. injection Hnew as <-.
  split_and!; try done.
  unfold BrowserServer_handlePrompt.
  by rewrite (BrowserServer_Init_config _ _ _ Hinit).
Qed.

(** *** The browser provider: screenshots *)

Lemma wrap64_small (z : Z) :
  (- 2 ^ 63 ≤ z < 2 ^ 63)%Z → wrap64 z = z.
Proof. intros Hz. unfold wrap64. rewrite Z.mod_small; lia. Qed.

Lemma handleScreenshot_timeout (seconds : Z) :
  (0 ≤ seconds * 3 * time_Second < 2 ^ 63)%Z →
  wrap64 (wrap64 (seconds * 3) * time_Second) = (seconds * 3 * time_Second)%Z.
Proof.
  unfold time_Second. intros Hs.
  rewrite (wrap64_small (seconds * 3)) by lia. apply wrap64_small. lia.
Qed.

(** X24. For a request decoded from JSON, whose numbers arrive as
    float64 and not as int, [handleScreenshot] ignores the requested
    width and height: when the name is a string and no selector is given,
    the browser is asked for a full-page screenshot in a 1280 by 800
    viewport, under three times the selector time-out, and the handler
    returns no Go error. *)
Theorem handleScreenshot_decoded_viewport (sh : ScreenshotHost)
    (bs : BrowserServerT) (arguments : gmap string Json) (name : string) :
  arguments !! "name" = Some (JString name) →
  (∀ s, arguments !! "selector" = Some (JString s) → s = "") →
  (0 ≤ SelectorQueryTimeout (config bs) * 3 * time_Second < 2 ^ 63)%Z →
  sr_action (BrowserServer_handleScreenshot sh bs (decodedArguments arguments))
  = Some ((SelectorQueryTimeout (config bs) * 3 * time_Second)%Z,
          FullScreenshot 1280 800)
  ∧ sr_error (BrowserServer_handleScreenshot sh bs (decodedArguments arguments))
    = None.
Proof.
  intros Hname Hsel Htime. unfold BrowserServer_handleScreenshot, decodedArguments.
  rewrite !lookup_fmap, Hname. cbn [fmap option_fmap option_map asString].
  rewrite (handleScreenshot_timeout _ Htime).
  assert (asString (GoJson <$> arguments !! "selector") = None
          ∨ asString (GoJson <$> arguments !! "selector") = Some "") as [-> | ->].
  { destruct (arguments !! "selector") as [[]|] eqn:Hs; simpl; eauto.
    right. f_equal. by apply Hsel. }
  all: assert (asInt (GoJson <$> arguments !! "width") = None) as ->
         by (by destruct (arguments !! "width")).
  all: assert (asInt (GoJson <$> arguments !! "height") = None) as ->
         by (by destruct (arguments !! "height")).
  all: cbn [default]; rewrite !decide_True by done.
  all: destruct (sh_Run sh _ _); [|done].
  all: by destruct (sh_WriteFile sh _ _).
Qed.

(** X25. The file name of a screenshot is built with
    [strings.TrimRight(name, ".png")], which takes ".png" as a set of
    characters: two requests whose names differ only by trailing
    characters among '.', 'p', 'n' and 'g' run alike and write the same
    file, and the stem of a written file never ends in one of these
    characters. *)
Theorem handleScreenshot_trailing_cutset (sh : ScreenshotHost)
    (bs : BrowserServerT) (arguments : gmap string GoValue)
    (stem suffix : string) :
  allInCutset suffix ".png" = true →
  BrowserServer_handleScreenshot sh bs
    (<["name" := GoJson (JString (stem +:+ suffix))]> arguments)
  = BrowserServer_handleScreenshot sh bs
      (<["name" := GoJson (JString stem)]> arguments)
  ∧ ∀ path buf,
      sr_written (BrowserServer_handleScreenshot sh bs
                    (<["name" := GoJson (JString stem)]> arguments))
      = Some (path, buf) →
      ∃ trimmed,
        path = filepath_Join (DataPath (config bs))
                 (trimmed +:+ "_" +:+ sh_randInt sh +:+ ".png")
        ∧ ∀ front c, trimmed = front +:+ String c EmptyString →
                     inCutset c ".png" = false.
Proof.
  intros Hsuffix. unfold BrowserServer_handleScreenshot.
  rewrite !lookup_insert_eq, !lookup_insert_ne by done.
  cbn [asString]. rewrite (strings_TrimRight_app _ _ _ Hsuffix).
  split; [done|]. intros path buf.
  destruct (sh_Run sh _ _); [|done].
  destruct (sh_WriteFile sh _ _); [done|]. cbn [sr_written]. intros [= <- <-].
  exists (strings_TrimRight stem ".png"). split; [done|].
  intros front c Hfront. by apply (strings_TrimRight_last _ _ _ _ Hfront).
Qed.

End FurtherProviderProperties.

(** ** The [config] command *)

Lemma append_assoc_l (s1 s2 s3 : string) :
  (s1 +:+ s2) +:+ s3 = s1 +:+ s2 +:+ s3.
Proof.
  induction s1 as [|c s1 IH]; [done|].
  by rewrite !append_cons_l, IH.
Qed.

Lemma append_nil_r (s : string) : s +:+ "" = s.
Proof.
  induction s as [|c s IH]; [done|]. by rewrite append_cons_l, IH.
Qed.

Lemma joinWith_cons (sep x : string) (l : list string) :
  joinWith sep (x :: l) = x +:+ prefixedWith sep l.
Proof.
  revert x. induction l as [|y l IH]; intros x.
  - simpl. by rewrite append_nil_r.
  - change (joinWith sep (x :: y :: l)) with (x +:+ sep +:+ joinWith sep (y :: l)).
    by rewrite IH.
Qed.

(** The providers the loop of [addServiceConfigs] starts and the text it
    appends after the first provider. *)
Lemma addServiceConfigs_rest ctx existingConfig entries :
  ∀ bf t bf',
  addServiceConfigs ctx existingConfig entries bf false = (t, Returns (bf', None)) →
  constructed t = entries.*1
  ∧ Forall startupEvent t
  ∧ ∃ svcs,
      Forall2 (λ e srv, ∃ t', initSingleService ctx e.1 e.2 existingConfig
                              = (t', Returns (inl srv))) entries svcs
      ∧ bf' = bf +:+ prefixedWith ("," +:+ nl) (serviceConfigText <$> svcs).
Proof.
  induction entries as [|[srvName nsv] rest IH]; intros bf t bf' Hrun.
  - injection Hrun as <- <-. split_and!; [done|done|].
    exists []. split; [constructor|]. simpl. by rewrite append_nil_r.
  - cbn [addServiceConfigs] in Hrun.
    pose proof (initSingleService_constructed ctx srvName nsv existingConfig) as Hc.
    pose proof (initSingleService_startupEvents ctx srvName nsv existingConfig) as Hs.
    destruct (initSingleService ctx srvName nsv existingConfig)
      as [t1 [[srv|err]|msg|]] eqn:Hinit; try done.
    rewrite bind_returns in Hrun.
    destruct (addServiceConfigs ctx existingConfig rest _ false)
      as [t2 r] eqn:Hrest.
    cbn [fst snd] in Hrun. injection Hrun as <- ->.
    destruct (IH _ _ _ Hrest) as (Hc2 & Hs2 & svcs & Hsvcs & ->).
    unfold trace in *. cbn [fst] in *. split_and!.
    + unfold constructed in *. rewrite omap_app, Hc, Hc2. done.
    + by apply Forall_app.
    + exists (srv :: svcs). split; [constructor; eauto|].
      cbn [fmap list_fmap prefixedWith]. by rewrite !append_assoc_l.
Qed.

Lemma addServiceConfigs_first ctx existingConfig entries bf t bf' :
  addServiceConfigs ctx existingConfig entries bf true = (t, Returns (bf', None)) →
  constructed t = entries.*1
  ∧ Forall startupEvent t
  ∧ ∃ svcs,
      Forall2 (λ e srv, ∃ t', initSingleService ctx e.1 e.2 existingConfig
                              = (t', Returns (inl srv))) entries svcs
      ∧ bf' = bf +:+ joinWith ("," +:+ nl) (serviceConfigText <$> svcs).
Proof.
  destruct entries as [|[srvName nsv] rest]; intros Hrun.
  - injection Hrun as <- <-. split_and!; [done|done|].
    exists []. split; [constructor|]. simpl. by rewrite append_nil_r.
  - cbn [addServiceConfigs] in Hrun.
    pose proof (initSingleService_constructed ctx srvName nsv existingConfig) as Hc.
    pose proof (initSingleService_startupEvents ctx srvName nsv existingConfig) as Hs.
    destruct (initSingleService ctx srvName nsv existingConfig)
      as [t1 [[srv|err]|msg|]] eqn:Hinit; try done.
    rewrite bind_returns in Hrun.
    destruct (addServiceConfigs ctx existingConfig rest _ false)
      as [t2 r] eqn:Hrest.
    cbn [fst snd] in Hrun. injection Hrun as <- ->.
    destruct (addServiceConfigs_rest _ _ _ _ _ _ Hrest)
      as (Hc2 & Hs2 & svcs & Hsvcs & ->).
    unfold trace in *. cbn [fst] in *. split_and!.
    + unfold constructed in *. rewrite omap_app, Hc, Hc2. done.
    + by apply Forall_app.
    + exists (srv :: svcs). split; [constructor; eauto|].
      rewrite fmap_cons, joinWith_cons. by rewrite !append_assoc_l.
Qed.

(** X26. When [buildConfigData] returns a document, it has started
    every registered provider, in the order of the iteration and whatever
    the module selection is, has closed none of them, and the document is
    the opening brace, the global configuration under the key
    MoLingConfig followed by a comma, the sections of the providers with
    a comma between two sections and none after the last, and the closing
    brace. *)
Theorem buildConfigData_document (h : ConfigHost) (mlConfig : MoLingConfig)
    (ctx : Context) (existingConfig : option (gmap string Json))
    (entries : list (MoLingServerType * ServiceFactory))
    (t : list Event) (configData : string) :
  buildConfigData h mlConfig ctx existingConfig entries
    = (t, Returns (inl configData)) →
  constructed t = entries.*1
  ∧ Forall startupEvent t
  ∧ ∃ mlConfigJson svcs,
      ch_MarshalGlobal h mlConfig = inl mlConfigJson
      ∧ Forall2 (λ e srv, ∃ t', initSingleService ctx e.1 e.2 existingConfig
                                = (t', Returns (inl srv))) entries svcs
      ∧ configData
        = nl +:+ "{" +:+ nl
          +:+ tab +:+ dq +:+ "MoLingConfig" +:+ dq +:+ ":" +:+ nl
          +:+ tab +:+ mlConfigJson +:+ "," +:+ nl
          +:+ joinWith ("," +:+ nl) (serviceConfigText <$> svcs)
          +:+ "}" +:+ nl.
Proof.
  unfold buildConfigData, addGlobalConfig. intros Hrun.
  destruct (ch_MarshalGlobal h mlConfig) as [mlConfigJson|err] eqn:Hglobal;
    [|by injection Hrun].
  destruct (addServiceConfigs ctx existingConfig entries _ true)
    as [t1 [[bf' [err|]]|msg|]] eqn:Hadd;
    unfold mbind, M_bind, mret, M_ret in Hrun; cbn in Hrun; try done.
  injection Hrun as <- <-. rewrite app_nil_r.
  destruct (addServiceConfigs_first _ _ _ _ _ _ Hadd)
    as (Hc & Hs & svcs & Hsvcs & ->).
  split_and!; [done|done|].
  exists mlConfigJson, svcs. split_and!; [done|done|].
  by rewrite !append_assoc_l.
Qed.

Lemma buildConfigData_document_witness :
  ∃ t configData,
    buildConfigData freshConfigHost (configWithModule "Nothing")
      (createContext (configWithModule "Nothing")) None browserEntries
    = (t, Returns (inl configData))
    ∧ constructed t = ["Browser"].
Proof.
  eexists _, _. split; [vm_compute; reflexivity|].
  eapply (buildConfigData_document freshConfigHost (configWithModule "Nothing")
            (createContext (configWithModule "Nothing")) None browserEntries).
  vm_compute. reflexivity.
Defined.

(** X27. The [config] command writes the configuration file exactly
    when reading it failed, the document was built and formatted, and
    the write went through; the content is the formatted document and the
    command returns nil. Every read error counts, as [loadExistingConfig]
    takes any of them for absence: a file that exists but cannot be read
    is written over. A file that could be read is never written, also
    when its content is not valid JSON, and no other file is written. *)
Theorem ConfigCommandFunc_writes_iff_read_failed (h : ConfigHost)
    (mlConfig : MoLingConfig)
    (entries : list (MoLingServerType * ServiceFactory))
    (t : list Event) (written : option (string * string))
    (err : option error) :
  let configFilePath := filepath_Join (BasePath mlConfig) (ConfigFile mlConfig) in
  ConfigCommandFunc h mlConfig entries = (t, Returns (written, err)) →
  (∀ data, ch_ReadFile h configFilePath = inl data → written = None)
  ∧ (∀ path content,
       written = Some (path, content) ↔
       path = configFilePath
       ∧ (∃ e, ch_ReadFile h configFilePath = inr e)
       ∧ (∃ t' configData,
             buildConfigData h mlConfig (createContext mlConfig) None entries
               = (t', Returns (inl configData))
             ∧ formatConfigJson h configData = inl content)
       ∧ ch_WriteFile h configFilePath content = None)
  ∧ (is_Some written → err = None).
Proof.
  cbn zeta. unfold ConfigCommandFunc, loadExistingConfig, saveConfigIfNeeded.
  intros Hrun.
  destruct (ch_ReadFile h _) as [data|e] eqn:Hread.
  - assert (written = None) as ->.
    { destruct (ch_UnmarshalMap h data) as [existing|e];
        [|unfold mbind, M_bind, log in Hrun; cbn in Hrun; by simplify_eq].
      destruct (buildConfigData h mlConfig _ existing entries)
        as [t1 [[configData|e]|msg|]];
        unfold mbind, M_bind, mret, M_ret, log in Hrun; cbn in Hrun;
        try by simplify_eq.
      destruct (formatConfigJson h configData); cbn in Hrun; by simplify_eq. }
    split_and!; [done| |by intros [? ?]].
    intros path content. split; [done|]. by intros (_ & [e He] & _).
  - split; [done|].
    destruct (buildConfigData h mlConfig _ None entries)
      as [t1 [[configData|e']|msg|]] eqn:Hbuild;
      unfold mbind, M_bind, mret, M_ret, log in Hrun; cbn in Hrun;
      try done.
    + destruct (formatConfigJson h configData) as [formatted|e'] eqn:Hformat;
        cbn in Hrun.
      * destruct (ch_WriteFile h _ formatted) as [e'|] eqn:Hwrite;
          cbn in Hrun; simplify_eq.
        -- split; [|by intros [? ?]]. intros path content.
           split; [done|].
           intros (-> & _ & (t' & data' & [= <- <-] & Hf) & Hw).
           rewrite Hformat in Hf. injection Hf as <-. congruence.
        -- split; [|done]. intros path content. split.
           ++ intros [= <- <-]. split_and!; eauto.
           ++ intros (-> & _ & (t' & data' & [= <- <-] & Hf) & _).
              rewrite Hformat in Hf. by simplify_eq.
      * simplify_eq. split; [|by intros [? ?]]. intros path content.
        split; [done|].
        intros (_ & _ & (t' & data' & [= <- <-] & Hf) & _).
        by rewrite Hformat in Hf.
    + simplify_eq. split; [|by intros [? ?]]. intros path content.
      split; [done|]. by intros (_ & _ & (t' & data' & [=] & _) & _).
Qed.

Lemma ConfigCommandFunc_writes_iff_read_failed_witness :
  ∃ t content,
    ConfigCommandFunc freshConfigHost (configWithModule "all") browserEntries
    = (t, Returns (Some (filepath_Join (BasePath (configWithModule "all"))
                           (ConfigFile (configWithModule "all")), content),
                   None))
    ∧ ch_WriteFile freshConfigHost
        (filepath_Join (BasePath (configWithModule "all"))
           (ConfigFile (configWithModule "all"))) content = None
    ∧ ∃ e, ch_ReadFile freshConfigHost
             (filepath_Join (BasePath (configWithModule "all"))
                (ConfigFile (configWithModule "all"))) = inr e.
Proof.
  eexists _, _. split; [vm_compute; reflexivity|].
  destruct (ConfigCommandFunc_writes_iff_read_failed freshConfigHost
              (configWithModule "all") browserEntries _ _ _ eq_refl)
    as (_ & Hwritten & _).
  destruct (proj1 (Hwritten _ _) eq_refl) as (_ & Hread & _ & Hwrite).
  split; [exact Hwrite|exact Hread].
Defined.

(** ** The browser provider on concrete hosts *)

Lemma BrowserServer_Init_all_or_nothing_witness :
  ∃ bs' : DemoBrowserServer,
    BrowserServer_Init quietHost demoPrompt demoTools (demoBrowser quietHost)
    = Returns (bs', None)
    ∧ Prompts (bs_MLService bs') = [demoPrompt]
    ∧ length (Tools (bs_MLService bs')) = 13.
Proof.
  eexists. split; [reflexivity|].
  destruct (BrowserServer_Init_all_or_nothing quietHost demoPrompt demoTools
              (demoBrowser quietHost) _ None eq_refl)
    as [[[? [=]] _]|(_ & Hp & Ht & _)].
  split; [exact Hp|]. by rewrite Ht.
Defined.

Lemma BrowserServer_LoadConfig_then_prompt_witness :
  ∃ bs1 bs2 : DemoBrowserServer,
    BrowserServer_LoadConfig promptHost promptFileBrowser ∅ = (bs1, None)
    ∧ BrowserServer_Init promptHost demoPrompt demoTools bs1 = Returns (bs2, None)
    ∧ pm_Text <$> gp_Messages (BrowserServer_handlePrompt bs2).1
      = ["Browse with care."].
Proof.
  eexists _, _. split; [vm_compute; reflexivity|]. split; [reflexivity|].
  destruct (BrowserServer_LoadConfig_then_prompt promptHost demoPrompt demoTools
              promptFileBrowser _ _ ∅ None eq_refl eq_refl)
    as (_ & _ & _ & _ & _ & _ & text & Hprompt & [[[=] _]|[_ [= <-]]]).
  exact (f_equal (λ r, pm_Text <$> gp_Messages r.1) Hprompt).
Defined.

Lemma NewBrowserServer_unconfigured_prompt_witness :
  ∃ bs bs' : DemoBrowserServer,
    NewBrowserServer quietHost (createContext (configWithModule "all"))
    = Returns (inl bs)
    ∧ BrowserServer_Init quietHost demoPrompt demoTools bs = Returns (bs', None)
    ∧ pm_Text <$> gp_Messages (BrowserServer_handlePrompt bs').1 = [""].
Proof.
  eexists _, _. split; [reflexivity|]. split; [reflexivity|].
  destruct (NewBrowserServer_unconfigured_prompt
              (Resource:=string) (ResourceTemplate:=string)
              (ResourceHandlerFunc:=string)
              (ResourceTemplateHandlerFunc:=string)
              (NotificationHandlerFunc:=string)
              quietHost demoPrompt demoTools
              (createContext (configWithModule "all")) _ _ None eq_refl eq_refl)
    as (_ & _ & _ & _ & _ & Hprompt).
  exact (f_equal (λ r, pm_Text <$> gp_Messages r.1) Hprompt).
Defined.

Lemma handleScreenshot_decoded_viewport_witness :
  sr_action (BrowserServer_handleScreenshot demoScreenshotHost
               (demoBrowser quietHost) (decodedArguments demoScreenshotRequest))
  = Some (60000000000%Z, FullScreenshot 1280 800).
Proof.
  destruct (handleScreenshot_decoded_viewport demoScreenshotHost
              (demoBrowser quietHost) demoScreenshotRequest "spring.png")
    as [Haction _].
  - reflexivity.
  - intros s Hs. vm_compute in Hs. discriminate Hs.
  - simpl. unfold time_Second. lia.
  - exact Haction.
Defined.

Lemma handleScreenshot_trailing_cutset_witness :
  BrowserServer_handleScreenshot demoScreenshotHost (demoBrowser quietHost)
    (<["name" := GoJson (JString "spring.png")]> ∅)
  = BrowserServer_handleScreenshot demoScreenshotHost (demoBrowser quietHost)
      (<["name" := GoJson (JString "spri")]> ∅).
Proof.
  destruct (handleScreenshot_trailing_cutset demoScreenshotHost
              (demoBrowser quietHost) ∅ "spri" "ng.png" eq_refl) as [Hsame _].
  exact Hsame.
Defined.

(** ** [Config] *)

Section ConfigProperties.
Context {Resource ResourceTemplate : Type}.
Context `{Countable Resource, Countable ResourceTemplate}.
Context {Prompt Tool : Type}.
Context {ResourceHandlerFunc ResourceTemplateHandlerFunc PromptHandlerFunc
         ToolHandlerFunc NotificationHandlerFunc : Type}.
Context (host : Host).
Context (browser_prompt : @PromptEntry Prompt PromptHandlerFunc).
Context (browser_tools : list (Tool * ToolHandlerFunc)).

Local Abbreviation BrowserServerT :=
  (@BrowserServer Resource ResourceTemplate _ _ _ _ Prompt Tool
     ResourceHandlerFunc ResourceTemplateHandlerFunc PromptHandlerFunc
     ToolHandlerFunc NotificationHandlerFunc).
Local Abbreviation AddOpT :=
  (@AddOp Resource ResourceTemplate Prompt Tool ResourceHandlerFunc
     ResourceTemplateHandlerFunc PromptHandlerFunc ToolHandlerFunc
     NotificationHandlerFunc).
Local Abbreviation browserInit :=
  (BrowserServer_Init host browser_prompt browser_tools).
Local Abbreviation browserOpsT :=
  (@BrowserServer_ops Resource ResourceTemplate _ _ _ _ Prompt Tool
     ResourceHandlerFunc ResourceTemplateHandlerFunc PromptHandlerFunc
     ToolHandlerFunc NotificationHandlerFunc host browser_prompt browser_tools).
Local Abbreviation browserFactoryT :=
  (@browserFactory Resource ResourceTemplate _ _ _ _ Prompt Tool
     ResourceHandlerFunc ResourceTemplateHandlerFunc PromptHandlerFunc
     ToolHandlerFunc NotificationHandlerFunc host browser_prompt browser_tools).





End ConfigProperties.

